(** * proxy.py: routing shim in front of an API process and static files

    A shallow embedding of [src/proxy.py] and the properties its
    specification states about it.

    Python values are modelled as follows.
    - [str] is [string]; [str.lower], [str.upper], [str.startswith],
      [str.lstrip], [str.split] and [str.join] are written out below.  Case
      mapping is the ASCII one: HTTP header names and methods are ASCII
      tokens.
    - [bytes] is [list byte].
    - A [dict] is an insertion-ordered association list with unique keys:
      [items()] walks it front to back, assignment to a present key
      keeps the key's position, assignment to a new key appends.
    - A call that may raise returns an [outcome].
    - [time.monotonic()] readings and time-outs are rationals (seconds). *)

From Stdlib Require Import String Ascii List Bool Arith ZArith QArith Lia.
From Stdlib Require Import Strings.Byte.
From Stdlib Require Import DecimalString DecimalNat.
From Stdlib Require Import Lqa.
Import ListNotations.

Local Open Scope string_scope.
Local Open Scope Z_scope.
Local Open Scope nat_scope.
Local Open Scope list_scope.

Set Implicit Arguments.
Set Warnings "-abstract-large-number".

(** ** Python strings *)

Module PyStr.

Definition is_upper (c : ascii) : bool :=
  let n := nat_of_ascii c in (65 <=? n) && (n <=? 90).

Definition is_lower (c : ascii) : bool :=
  let n := nat_of_ascii c in (97 <=? n) && (n <=? 122).

Definition ascii_lower (c : ascii) : ascii :=
  if is_upper c then ascii_of_nat (nat_of_ascii c + 32) else c.

Definition ascii_upper (c : ascii) : ascii :=
  if is_lower c then ascii_of_nat (nat_of_ascii c - 32) else c.

(** [s.lower()] *)
Fixpoint lower (s : string) : string :=
  match s with
  | EmptyString => EmptyString
  | String c s' => String (ascii_lower c) (lower s')
  end.

(** [s.upper()] *)
Fixpoint upper (s : string) : string :=
  match s with
  | EmptyString => EmptyString
  | String c s' => String (ascii_upper c) (upper s')
  end.

(** [s.startswith(p)] *)
Definition startswith (s p : string) : bool := String.prefix p s.

(** [s.lstrip(c)] for a one-character set [c] *)
Fixpoint lstrip (c : ascii) (s : string) : string :=
  match s with
  | EmptyString => EmptyString
  | String a s' => if Ascii.eqb a c then lstrip c s' else s
  end.

(** [s.split(sep)] for a one-character separator: never empty, an empty
    string splits into one empty field. *)
Fixpoint split (sep : ascii) (s : string) : list string :=
  match s with
  | EmptyString => [EmptyString]
  | String a s' =>
      if Ascii.eqb a sep then EmptyString :: split sep s'
      else match split sep s' with
           | [] => [String a EmptyString]
           | field :: fields => String a field :: fields
           end
  end.

(** [sep.join(l)] *)
Fixpoint join (sep : string) (l : list string) : string :=
  match l with
  | [] => EmptyString
  | [x] => x
  | x :: rest => String.append x (String.append sep (join sep rest))
  end.

(** [str(n)] for a non-negative integer *)
Definition str (n : nat) : string := NilEmpty.string_of_uint (Nat.to_uint n).

(** [x in (a, b, ...)] on strings *)
Definition mem (x : string) (l : list string) : bool :=
  existsb (String.eqb x) l.

End PyStr.

(** ** Python dicts with string keys *)

Module PyDict.

Definition dict (V : Type) : Type := list (string * V).

(** [d.get(k)] *)
Fixpoint get {V} (k : string) (d : dict V) : option V :=
  match d with
  | [] => None
  | (k', v) :: rest => if String.eqb k' k then Some v else get k rest
  end.

(** [k in d] *)
Definition contains {V} (k : string) (d : dict V) : bool :=
  match get k d with Some _ => true | None => false end.

(** [d[k] = v] *)
Fixpoint set {V} (k : string) (v : V) (d : dict V) : dict V :=
  match d with
  | [] => [(k, v)]
  | (k', v') :: rest =>
      if String.eqb k' k then (k, v) :: rest else (k', v') :: set k v rest
  end.

(** [{k: v for (k, v) in l}] *)
Definition of_items {V} (l : list (string * V)) : dict V :=
  fold_left (fun d kv => set (fst kv) (snd kv) d) l [].

Definition keys {V} (d : dict V) : list string := map fst d.

(** The dict invariant: no key occurs twice. *)
Definition wf {V} (d : dict V) : Prop := NoDup (keys d).

End PyDict.

Import PyStr PyDict.

(** ** Exceptions *)

Inductive exn : Type :=
| IndexError
| AssertionError
| ValueError
| TypeError
| RuntimeError (msg : string)
| OSError.

Inductive outcome (A : Type) : Type :=
| Ok (a : A)
| Raise (e : exn).

Arguments Ok {A} a.
Arguments Raise {A} e.

Definition bind {A B} (m : outcome A) (k : A -> outcome B) : outcome B :=
  match m with
  | Ok a => k a
  | Raise e => Raise e
  end.

Declare Scope py_scope.
Delimit Scope py_scope with py.
Notation "x <- m ;; k" := (bind m (fun x => k))
  (at level 61, m at next level, right associativity) : py_scope.
Notation "' p <- m ;; k" := (bind m (fun x => match x with p => k end))
  (at level 61, p pattern, m at next level, right associativity) : py_scope.
Local Open Scope py_scope.

(** [values[0]] *)
Definition index0 {A} (values : list A) : outcome A :=
  match values with
  | [] => Raise IndexError
  | v :: _ => Ok v
  end.

(** Headers and query parameters: name to ordered sequence of values. *)
Definition multidict : Type := dict (list string).

Definition bytes : Type := list byte.

(** ** Binary content decision *)

Definition _is_text_content_type (content_type : string) : bool :=
  if startswith content_type "text/" then true
  else if startswith content_type "application/javascript" then true
  else if startswith content_type "application/json" then true
  else if startswith content_type "image/svg+xml" then true
  else false.

(** The [for name, values in headers.items()] loop of
    [_is_binary_content], threading the two locals it assigns. *)
Fixpoint scan_content_headers (items : list (string * list string))
    (content_type content_encoding : string) : outcome (string * string) :=
  match items with
  | [] => Ok (content_type, content_encoding)
  | (name, values) :: rest =>
      content_type <-
        (if String.eqb (lower name) "content-type"
         then index0 values else Ok content_type) ;;
      content_encoding <-
        (if String.eqb (lower name) "content-encoding"
         then index0 values else Ok content_encoding) ;;
      scan_content_headers rest content_type content_encoding
  end.

Definition _is_binary_content (headers : multidict) : outcome bool :=
  ' (content_type, content_encoding) <-
      scan_content_headers headers "text/plain" "identity" ;;
  if negb (String.eqb content_encoding "identity") then Ok true
  else if _is_text_content_type content_type then Ok false
  else Ok true.

(** ** Requests, responses and the world around the proxy *)

(** A request body is a [str] (gateway event, not base64) or [bytes]. *)
Inductive payload : Type :=
| Text (s : string)
| Binary (b : bytes).

(** [(status, headers, body)] *)
Definition response : Type := (Z * multidict * option bytes)%type.

Definition status_of (r : response) : Z := fst (fst r).
Definition headers_of (r : response) : multidict := snd (fst r).
Definition body_of (r : response) : option bytes := snd r.

(** What a path names on disk. *)
Inductive fs_entry : Type :=
| RegularFile (content : bytes)
| Directory.

(** ** The proxy application: [make_proxy_app] and its three closures *)

Section make_proxy_app.

Variable static_path : string.
Variable api_server_host : string.
Variable api_server_port : nat.

(** [fs root rel] is the entry named by [Path(root) / rel], if any. *)
Variable fs : string -> string -> option fs_entry.

(** [mimetypes.guess_type(path)[0]] *)
Variable guess_type : string -> option string.

(** [urllib.parse.urlencode(query, doseq=True)] *)
Variable urlencode : multidict -> string.

(** One exchange over [HTTPConnection(host, port, timeout=timeout)]:
    [request(method, url, headers, body)] followed by [getresponse()],
    giving the status, [getheaders()] and [read()]. *)
Variable http_exchange :
  string -> nat -> Q -> string -> string -> list (string * string) ->
  option payload -> outcome (Z * list (string * string) * bytes).

Definition path_exists (rel : string) : bool :=
  match fs static_path rel with Some _ => true | None => false end.

Definition path_is_file (rel : string) : bool :=
  match fs static_path rel with Some (RegularFile _) => true | _ => false end.

(** [filepath.read_bytes()]; the handler calls it on regular files only. *)
Definition read_bytes (rel : string) : bytes :=
  match fs static_path rel with Some (RegularFile content) => content | _ => [] end.

(** [filepath.stat().st_size]; the handler calls it on regular files only. *)
Definition st_size (rel : string) : nat := length (read_bytes rel).

Definition accepted_methods : list string := ["GET"; "HEAD"].

Definition _static_handler (method path : string) : response :=
  let method := upper method in
  let filepath := lstrip "/" path in
  if mem method accepted_methods && path_exists filepath && path_is_file filepath
  then
    let '(response_body, content_length) :=
      if String.eqb method "HEAD"
      then ([], st_size filepath)
      else (read_bytes filepath, length (read_bytes filepath)) in
    let content_type :=
      match guess_type path with
      | Some guessed_type =>
          if String.eqb guessed_type "" then "text/plain" else guessed_type
      | None => "text/plain"
      end in
    (200%Z,
     [("Content-Length", [str content_length]);
      ("Content-Type", [content_type])],
     Some response_body)
  else if negb (mem method accepted_methods)
  then
    let response_body := list_byte_of_string "Bad Request" in
    (401%Z,
     [("Content-Length", [str (length response_body)]);
      ("Content-Type", ["text/plain"])],
     Some response_body)
  else
    let response_body := list_byte_of_string "Not Found" in
    (404%Z,
     [("Content-Length", [str (length response_body)]);
      ("Content-Type", ["text/plain"])],
     Some response_body).

(** Grouping of [(name, value)] lines into a dict of value lists, as both
    [_api_server_handler] and the socket adapter do. *)
Definition group_headers (lines : list (string * string)) : multidict :=
  fold_left
    (fun response_headers line =>
       let '(name, value) := line in
       match get name response_headers with
       | Some values => set name (values ++ [value]) response_headers
       | None => set name [value] response_headers
       end)
    lines [].

Definition _api_server_handler (method path : string) (query headers : multidict)
    (body : option payload) (timeout : Q) : outcome response :=
  let url :=
    match query with
    | [] => path
    | _ :: _ => String.append path (String.append "?" (urlencode query))
    end in
  let headers_multi :=
    flat_map (fun '(name, values) => map (fun value => (name, value)) values)
             headers in
  ' (status, lines, response_body) <-
      http_exchange api_server_host api_server_port timeout
                    method url headers_multi body ;;
  Ok (status, group_headers lines, Some response_body).

Definition _root_handler (method path : string) (query headers : multidict)
    (body : option payload) (timeout : Q) : outcome response :=
  if String.eqb path "/" then Ok (_static_handler method "/index.html")
  else if startswith path "/api/"
  then _api_server_handler method path query headers body timeout
  else Ok (_static_handler method path).

End make_proxy_app.

(** ** The gateway adapter: [lambda_handler] *)

Record gateway_event : Type := {
  version : string;
  http_method : string;
  http_path : string;
  rawQueryString : option string;
  event_headers : dict string;
  event_cookies : option (list string);
  event_body : option string;
  isBase64Encoded : bool
}.

Record gateway_reply : Type := {
  statusCode : Z;
  reply_headers : dict string;
  reply_cookies : list string;
  reply_isBase64Encoded : bool;
  reply_body : option bytes
}.

(** The [for cookie in event.get("cookies", [])] loop. *)
Fixpoint add_cookies (cookies : list string) (headers : multidict) : multidict :=
  match cookies with
  | [] => headers
  | cookie :: rest =>
      add_cookies rest
        (match get "Cookie" headers with
         | Some values => set "Cookie" (values ++ [cookie]) headers
         | None => set "Cookie" [cookie] headers
         end)
  end.

(** [{name: values.split(",") for name, values in event["headers"].items()}] *)
Definition split_headers (event : gateway_event) : multidict :=
  of_items (map (fun '(name, values) => (name, split "," values))
                (event_headers event)).

(** [event.get("cookies", [])] *)
Definition cookie_list (event : gateway_event) : list string :=
  match event_cookies event with Some l => l | None => [] end.

(** The request headers built from the event. *)
Definition request_headers (event : gateway_event) : multidict :=
  let headers := split_headers event in
  add_cookies (cookie_list event) headers.

(** The ["headers"] field of the reply. *)
Definition serialize_headers (response_headers : multidict) : dict string :=
  of_items
    (map (fun '(name, values) => (name, join "," values))
         (filter (fun '(name, _) => negb (String.eqb (lower name) "set-cookie"))
                 response_headers)).

(** The ["cookies"] field of the reply. *)
Definition serialize_cookies (response_headers : multidict) : list string :=
  flat_map (fun '(_, values) => values)
    (filter (fun '(name, _) => String.eqb (lower name) "set-cookie")
            response_headers).

Section lambda_handler.

(** [urllib.parse.parse_qs] *)
Variable parse_qs : string -> multidict.

(** [base64.standard_b64decode] and [base64.standard_b64encode] *)
Variable standard_b64decode : string -> outcome bytes.
Variable standard_b64encode : bytes -> bytes.

(** [one_time_init.proxy_app] *)
Variable proxy_app :
  string -> string -> multidict -> multidict -> option payload -> Q ->
  outcome response.

Definition lambda_handler (event : gateway_event)
    (remaining_time_in_millis : Z) : outcome gateway_reply :=
  _ <- (if String.eqb (version event) "2.0" then Ok tt
        else Raise AssertionError) ;;
  let method := http_method event in
  let path := http_path event in
  let query_string :=
    match rawQueryString event with Some s => s | None => "" end in
  let query := parse_qs query_string in
  let headers := request_headers event in
  let body := match event_body event with Some s => s | None => "" end in
  body <- (if isBase64Encoded event
           then b <- standard_b64decode body ;; Ok (Binary b)
           else Ok (Text body)) ;;
  let timeout_buffer := 1%Q in
  let timeout :=
    (inject_Z remaining_time_in_millis / 1000 - timeout_buffer)%Q in
  ' (status, response_headers, response_body) <-
      proxy_app method path query headers (Some body) timeout ;;
  is_binary <- _is_binary_content response_headers ;;
  ' (is_base64_encoded, response_body) <-
      (if is_binary : bool
       then match response_body with
            | Some b => Ok (true, Some (standard_b64encode b))
            | None => Raise TypeError
            end
       else Ok (false, response_body)) ;;
  Ok {| statusCode := status;
        reply_headers := serialize_headers response_headers;
        reply_cookies := serialize_cookies response_headers;
        reply_isBase64Encoded := is_base64_encoded;
        reply_body := response_body |}.

End lambda_handler.

(** ** The backend process manager: [start_api_server_process] *)

(** [subprocess.Popen(command, shell=True, env=..., stdin=None, text=True)] *)
Record Popen : Type := {
  popen_args : string;
  popen_shell : bool;
  popen_env : dict string
}.

(** What the function does to the world, in order. *)
Inductive effect : Type :=
| Spawn (process : Popen)
| Clock (now : Q)
| Sleep (seconds : Q)
| Connect (host : string) (port : nat) (errno : Z)
| Terminate (process : Popen).

Definition is_spawn (e : effect) : bool :=
  match e with Spawn _ => true | _ => false end.

Definition is_connect (e : effect) : bool :=
  match e with Connect _ _ _ => true | _ => false end.

Definition is_terminate (e : effect) : bool :=
  match e with Terminate _ => true | _ => false end.

(** The handle of the process started by
    [subprocess.Popen(command, shell=True, env={"PATH": path, "PORT": str(port), "PYTHONPATH": ".pypath/"}, ...)]. *)
Definition spawn (command : string) (port : nat) (path : string) : Popen :=
  {| popen_args := command;
     popen_shell := true;
     popen_env := [("PATH", path); ("PORT", str port);
                   ("PYTHONPATH", ".pypath/")] |}.

Section start_api_server_process.

(** [connect_ex k host port] is what the [k]-th call of
    [sock.connect_ex((host, port))] returns, [0] meaning connected. *)
Variable connect_ex : nat -> string -> nat -> Z.

(** [monotonic k] is the [k]-th reading of [time.monotonic()]. *)
Variable monotonic : nat -> Q.

(** The [while True] loop.  [attempt] counts the iterations done so far:
    every earlier iteration made one connection attempt and read the clock
    once, after the reading that fixed [end_time].  [None] when [fuel]
    iterations were not enough to leave the loop. *)
Fixpoint wait_for_port (fuel : nat) (process : Popen) (host : string)
    (port : nat) (end_time : Q) (attempt : nat) (trace : list effect)
    : option (outcome unit * list effect) :=
  match fuel with
  | O => None
  | S fuel' =>
      let trace := trace ++ [Sleep (1 # 100)] in
      let errno := connect_ex attempt host port in
      let trace := trace ++ [Connect host port errno] in
      if Z.eqb errno 0 then Some (Ok tt, trace)
      else
        let now := monotonic (S attempt) in
        let trace := trace ++ [Clock now] in
        if Qle_bool end_time now
        then Some (Raise (RuntimeError "Timeout waiting for API server to start"),
                   trace ++ [Terminate process])
        else wait_for_port fuel' process host port end_time (S attempt) trace
  end.

Definition start_api_server_process (fuel : nat) (command host : string)
    (port : nat) (start_timeout : Z) (path : string)
    : option (outcome Popen * list effect) :=
  let process := spawn command port path in
  let now := monotonic 0 in
  let end_time := (now + inject_Z start_timeout)%Q in
  match wait_for_port fuel process host port end_time 0
                      [Spawn process; Clock now] with
  | Some (Ok _, trace) => Some (Ok process, trace)
  | Some (Raise e, trace) => Some (Raise e, trace)
  | None => None
  end.

End start_api_server_process.

(** ** What the specification says, in its own words *)

(** The first value of header [name] (a lower-case name, matched without
    regard to case; when several spellings are present the last one in
    the mapping counts), [default] when the header is absent. *)
Definition header_first_value (name default : string) (headers : multidict)
    : string :=
  match find (fun '(n, _) => String.eqb (lower n) name) (rev headers) with
  | Some (_, value :: _) => value
  | _ => default
  end.

(** Every header present carries at least one value. *)
Definition has_values (headers : multidict) : Prop :=
  Forall (fun item => snd item <> []) headers.

Definition text_prefixes : list string :=
  ["text/"; "application/javascript"; "application/json"; "image/svg+xml"].

Definition starts_with_text_prefix (content_type : string) : Prop :=
  exists p, In p text_prefixes /\ startswith content_type p = true.

(** The headers called [name] when case is ignored ([name] in lower
    case), in mapping order. *)
Definition headers_named (name : string) (headers : multidict) : multidict :=
  filter (fun '(n, _) => String.eqb (lower n) name) headers.

(** The values a header has before the cookies are merged, none when the
    header is absent. *)
Definition values_of (name : string) (headers : multidict) : list string :=
  match get name headers with Some values => values | None => [] end.

(** Cookie merging with header names compared without regard to case: every
    Cookie header of the event, however spelled, ends up extended by the
    event's cookies. *)
Definition cookies_appended_ignoring_case (event : gateway_event) : Prop :=
  forall name values,
    get name (split_headers event) = Some values -> lower name = "cookie" ->
    get name (request_headers event) = Some (values ++ cookie_list event).

(** The same with the spellings of a header read as one header: the values
    of the Cookie header, over all its spellings, are the earlier ones
    followed by the event's cookies. *)
Definition cookies_appended_to_merged_header (event : gateway_event) : Prop :=
  flat_map snd (headers_named "cookie" (request_headers event)) =
  flat_map snd (headers_named "cookie" (split_headers event)) ++ cookie_list event.

(** A gateway event with the Cookie header in two spellings. *)
Definition mixed_case_cookie_event : gateway_event :=
  {| version := "2.0";
     http_method := "GET";
     http_path := "/api/date";
     rawQueryString := None;
     event_headers := [("Cookie", "x=1"); ("cookie", "y=2")];
     event_cookies := Some ["a=1"];
     event_body := None;
     isBase64Encoded := false |}.

(** A gateway event with two cookies and no Cookie header. *)
Definition two_cookies_event : gateway_event :=
  {| version := "2.0";
     http_method := "GET";
     http_path := "/api/date";
     rawQueryString := Some "tz=utc";
     event_headers := [("accept", "application/json")];
     event_cookies := Some ["a=1"; "b=2"];
     event_body := None;
     isBase64Encoded := false |}.

(** A gateway event whose headers carry a lower-case [cookie] header. *)
Definition lowercase_cookie_event : gateway_event :=
  {| version := "2.0";
     http_method := "GET";
     http_path := "/api/date";
     rawQueryString := None;
     event_headers := [("accept", "text/html,application/json");
                       ("cookie", "x=1")];
     event_cookies := Some ["a=1"];
     event_body := None;
     isBase64Encoded := false |}.

(** The invariant of a response: a Content-Length header, when present,
    holds the length of the body, 0 for an absent body. *)
Definition content_length_matches (r : response) : Prop :=
  forall name values,
    In (name, values) (headers_of r) -> lower name = "content-length" ->
    values = [str (match body_of r with Some b => length b | None => 0 end)].

(** ** A sample deployment *)

(** A static root holding [index.html] and a directory [static]. *)
Definition sample_fs (root rel : string) : option fs_entry :=
  if negb (String.eqb root "app/build") then None
  else if String.eqb rel "index.html"
       then Some (RegularFile (list_byte_of_string "<html></html>"))
  else if String.eqb rel "" then Some Directory
  else if String.eqb rel "static" then Some Directory
  else None.

Definition sample_guess_type (path : string) : option string :=
  if String.eqb path "/index.html" then Some "text/html" else None.

Definition sample_urlencode (query : multidict) : string :=
  join "&" (flat_map (fun '(name, values) =>
                        map (fun value => String.append name (String.append "=" value))
                            values) query).

(** A backend that answers every request with an empty JSON object. *)
Definition sample_http_exchange (host : string) (port : nat) (timeout : Q)
    (method url : string) (headers : list (string * string))
    (body : option payload) : outcome (Z * list (string * string) * bytes) :=
  Ok (200%Z, [("Content-Type", "application/json")], list_byte_of_string "{}").

Definition sample_static_handler : string -> string -> response :=
  _static_handler "app/build" sample_fs sample_guess_type.

Definition sample_proxy_app :
    string -> string -> multidict -> multidict -> option payload -> Q ->
    outcome response :=
  _root_handler "app/build" "localhost" 8180 sample_fs sample_guess_type
                sample_urlencode sample_http_exchange.

(** ** Traces of the readiness probe *)

(** The effects of [n] iterations of the probe loop that neither connect nor
    reach the deadline, the first of them being iteration [attempt]. *)
Fixpoint failed_attempts (connect_ex : nat -> string -> nat -> Z)
    (monotonic : nat -> Q) (host : string) (port : nat) (n attempt : nat)
    : list effect :=
  match n with
  | O => []
  | S n' =>
      [Sleep (1 # 100); Connect host port (connect_ex attempt host port);
       Clock (monotonic (S attempt))]
      ++ failed_attempts connect_ex monotonic host port n' (S attempt)
  end.

(** A backend that refuses the first two connection attempts (errno 111)
    and accepts the third, read against a clock that advances by 10 ms per
    reading. *)
Definition sample_connect_ex (k : nat) (host : string) (port : nat) : Z :=
  if k <? 2 then 111%Z else 0%Z.

Definition sample_monotonic (k : nat) : Q := (Z.of_nat k # 100).

(** ** One-time initialisation: [one_time_init] *)

Section one_time_init.

(** The settings read from the environment. *)
Variable API_COMMAND : string.
Variable API_START_TIMEOUT : Z.
Variable STATIC_PATH : string.
Variable PATH : string.

Variable connect_ex : nat -> string -> nat -> Z.
Variable monotonic : nat -> Q.
Variable fs : string -> string -> option fs_entry.
Variable guess_type : string -> option string.
Variable urlencode : multidict -> string.
Variable http_exchange :
  string -> nat -> Q -> string -> string -> list (string * string) ->
  option payload -> outcome (Z * list (string * string) * bytes).

(** The two attributes [one_time_init] sets, [api_process] and [proxy_app],
    or what starting the backend raised; with the effects of the start. *)
Definition one_time_init (fuel : nat)
    : option (outcome (Popen *
                       (string -> string -> multidict -> multidict ->
                        option payload -> Q -> outcome response))
              * list effect) :=
  let api_server_host := "localhost" in
  let api_server_port := 8180 in
  match start_api_server_process connect_ex monotonic fuel API_COMMAND
          api_server_host api_server_port API_START_TIMEOUT PATH with
  | None => None
  | Some (Raise e, trace) => Some (Raise e, trace)
  | Some (Ok api_process, trace) =>
      Some (Ok (api_process,
                _root_handler STATIC_PATH api_server_host api_server_port
                              fs guess_type urlencode http_exchange),
            trace)
  end.

End one_time_init.

(** ** The standalone socket adapter: [RequestHandler.do_request] *)

(** [headers_multi] of [_api_server_handler] and the [send_header] loop of
    [do_request]: one [(name, value)] line per value, in mapping order. *)
Definition header_lines (headers : multidict) : list (string * string) :=
  flat_map (fun '(name, values) => map (fun value => (name, value)) values)
           headers.

(** The request body [lambda_handler] passes on: the event's body, decoded
    when the event marks it as base64. *)
Definition request_body (standard_b64decode : string -> outcome bytes)
    (event : gateway_event) : outcome payload :=
  let body := match event_body event with Some s => s | None => "" end in
  if isBase64Encoded event
  then b <- standard_b64decode body ;; Ok (Binary b)
  else Ok (Text body).

(** The call [lambda_handler] makes to the proxy application, for a request
    body already decoded. *)
Definition route_event (parse_qs : string -> multidict)
    (proxy_app :
       string -> string -> multidict -> multidict -> option payload -> Q ->
       outcome response)
    (event : gateway_event) (remaining_time_in_millis : Z) (body : payload)
    : outcome response :=
  proxy_app (http_method event) (http_path event)
            (parse_qs (match rawQueryString event with
                       | Some s => s
                       | None => ""
                       end))
            (request_headers event) (Some body)
            (inject_Z remaining_time_in_millis / 1000 - 1)%Q.

(** The headers the binary content decision looks at. *)
Definition content_header (name : string) : bool :=
  String.eqb (lower name) "content-type"
  || String.eqb (lower name) "content-encoding".

(** The number of occurrences of a character in a string. *)
Fixpoint count_char (c : ascii) (s : string) : nat :=
  match s with
  | EmptyString => 0
  | String a s' => (if Ascii.eqb a c then 1 else 0) + count_char c s'
  end.

(** One round of the grouping loop of [group_headers]. *)
Definition group_step (response_headers : multidict) (line : string * string)
    : multidict :=
  let '(name, value) := line in
  match get name response_headers with
  | Some values => set name (values ++ [value]) response_headers
  | None => set name [value] response_headers
  end.

(** The values of the lines called exactly [name], in order. *)
Definition line_values (name : string) (lines : list (string * string))
    : list string :=
  map snd (filter (fun '(n, _) => String.eqb n name) lines).

(** The Content-Type the static file resolver gives a path. *)
Definition content_type_for (guess_type : string -> option string)
    (path : string) : string :=
  match guess_type path with
  | Some guessed_type =>
      if String.eqb guessed_type "" then "text/plain" else guessed_type
  | None => "text/plain"
  end.

(** What [do_request] sends on the connection. *)
Inductive sent : Type :=
| SendResponse (status : Z)
| SendHeader (name value : string)
| EndHeaders
| WriteBody (body : bytes)
| SendError (code : Z) (message : string).

(** [self.headers.get(name)]: the lookup of [email.message.Message] ignores
    case and takes the first line of that name. *)
Definition message_get (name : string) (message : list (string * string))
    : option string :=
  match find (fun '(n, _) => String.eqb (lower n) (lower name)) message with
  | Some (_, value) => Some value
  | None => None
  end.

Section do_request.

(** [urlparse(self.path)], of which the path and query components are used. *)
Variable urlparse : string -> outcome (string * string).

Variable parse_qs : string -> multidict.

(** [int(s)] on a header value. *)
Variable int_of_str : string -> outcome Z.

(** [self.rfile.read(length)] *)
Variable rfile_read : Z -> bytes.

Variable proxy_app :
  string -> string -> multidict -> multidict -> option payload -> Q ->
  outcome response.

(** The body of the [try] block: [command], [raw_path] and [message] are
    [self.command], [self.path] and the lines of [self.headers]. *)
Definition try_request (command raw_path : string)
    (message : list (string * string)) : outcome (list sent) :=
  let method := command in
  ' (path, query_string) <- urlparse raw_path ;;
  let query := parse_qs query_string in
  let headers := group_headers message in
  length <- (match message_get "Content-Length" message with
             | Some value => int_of_str value
             | None => Ok 0%Z
             end) ;;
  let body :=
    if Z.eqb length 0 then None else Some (Binary (rfile_read length)) in
  let timeout := 15%Q in
  ' (status, response_headers, response_body) <-
      proxy_app method path query headers body timeout ;;
  Ok ([SendResponse status]
      ++ map (fun '(name, value) => SendHeader name value)
             (header_lines response_headers)
      ++ [EndHeaders]
      ++ match response_body with
         | Some (b :: rest) => [WriteBody (b :: rest)]
         | _ => []
         end).

(** [do_request]: what is raised, if anything, and what was sent. *)
Definition do_request (command raw_path : string)
    (message : list (string * string)) : outcome unit * list sent :=
  match try_request command raw_path message with
  | Ok sending => (Ok tt, sending)
  | Raise e => (Raise e, [SendError 500%Z "Internal Server Error"])
  end.

End do_request.

(** [int(self.headers.get("Content-Length", 0))] *)
Definition declared_length (int_of_str : string -> outcome Z)
    (message : list (string * string)) : outcome Z :=
  match message_get "Content-Length" message with
  | Some value => int_of_str value
  | None => Ok 0%Z
  end.

(** The request body [do_request] reads for a declared length. *)
Definition read_body (rfile_read : Z -> bytes) (length : Z) : option payload :=
  if Z.eqb length 0 then None else Some (Binary (rfile_read length)).

(** The [send_response], [send_header], [end_headers] and [wfile.write]
    calls for a response. *)
Definition send (r : response) : list sent :=
  [SendResponse (status_of r)]
  ++ map (fun '(name, value) => SendHeader name value)
         (header_lines (headers_of r))
  ++ [EndHeaders]
  ++ match body_of r with
     | Some (b :: rest) => [WriteBody (b :: rest)]
     | _ => []
     end.

(** A request line parser for the sample deployment: no query string. *)
Definition sample_urlparse (raw_path : string) : outcome (string * string) :=
  Ok (raw_path, "").

Definition sample_parse_qs (query_string : string) : multidict := [].

(** Enough of [int] for the sample requests. *)
Definition sample_int_of_str (s : string) : outcome Z :=
  if String.eqb s "0" then Ok 0%Z
  else if String.eqb s "2" then Ok 2%Z
  else Raise ValueError.

Definition sample_rfile_read (length : Z) : bytes := list_byte_of_string "{}".

(** A backend that cannot be reached. *)
Definition refusing_http_exchange (host : string) (port : nat) (timeout : Q)
    (method url : string) (headers : list (string * string))
    (body : option payload) : outcome (Z * list (string * string) * bytes) :=
  Raise OSError.

(** Base64 stand-ins for the sample deployment; the properties hold for any
    pair of functions. *)
Definition sample_b64decode (s : string) : outcome bytes :=
  Ok (list_byte_of_string s).

Definition sample_b64encode (b : bytes) : bytes := b.

(** A gateway event asking for the root page. *)
Definition root_page_event : gateway_event :=
  {| version := "2.0";
     http_method := "GET";
     http_path := "/";
     rawQueryString := None;
     event_headers := [("accept", "text/html")];
     event_cookies := None;
     event_body := None;
     isBase64Encoded := false |}.

(** A gateway event of another payload format version. *)
Definition version_one_event : gateway_event :=
  {| version := "1.0";
     http_method := "GET";
     http_path := "/";
     rawQueryString := None;
     event_headers := [];
     event_cookies := None;
     event_body := None;
     isBase64Encoded := false |}.

(** A clock that advances by exactly the sleep interval per reading is
    [sample_monotonic]; a backend that never accepts: *)
Definition never_connect_ex (k : nat) (host : string) (port : nat) : Z := 111%Z.

(** * Properties *)

(** ** Binary content decision *)

Lemma find_rev_cons {A} (f : A -> bool) (x : A) (l : list A) :
  find f (rev (x :: l)) =
  match find f (rev l) with
  | Some y => Some y
  | None => if f x then Some x else None
  end.
Proof.
  simpl. induction (rev l) as [|y r IH]; simpl.
  - reflexivity.
  - destruct (f y); [reflexivity | exact IH].
Qed.

Lemma find_rev_has_values name (headers : multidict) n values :
  has_values headers ->
  find (fun '(n, _) => String.eqb (lower n) name) (rev headers) = Some (n, values) ->
  values <> [].
Proof.
  intros Hv Hf. apply find_some in Hf. destruct Hf as [Hin _].
  apply in_rev in Hin. unfold has_values in Hv. rewrite Forall_forall in Hv.
  exact (Hv _ Hin).
Qed.

Lemma header_first_value_cons name default n values (rest : multidict) :
  has_values rest ->
  header_first_value name default ((n, values) :: rest) =
  header_first_value name
    (if String.eqb (lower n) name
     then match values with v :: _ => v | [] => default end
     else default) rest.
Proof.
  intros Hv. unfold header_first_value. rewrite find_rev_cons.
  destruct (find _ (rev rest)) as [[n' vs']|] eqn:Hf.
  - pose proof (find_rev_has_values _ Hv Hf) as Hne.
    destruct vs'; [congruence | reflexivity].
  - destruct (String.eqb (lower n) name); reflexivity.
Qed.

Lemma scan_content_headers_spec (items : multidict) :
  has_values items ->
  forall content_type content_encoding,
    scan_content_headers items content_type content_encoding =
    Ok (header_first_value "content-type" content_type items,
        header_first_value "content-encoding" content_encoding items).
Proof.
  induction 1 as [|[n values] rest Hne Hrest IH]; intros ct ce.
  - reflexivity.
  - rewrite !header_first_value_cons by exact Hrest. simpl in Hne. simpl.
    destruct values as [|v vs]; [congruence|].
    destruct (String.eqb (lower n) "content-type");
      destruct (String.eqb (lower n) "content-encoding"); simpl; apply IH.
Qed.

Lemma is_text_content_type_iff content_type :
  _is_text_content_type content_type = true <->
  starts_with_text_prefix content_type.
Proof.
  unfold _is_text_content_type, starts_with_text_prefix, text_prefixes.
  split.
  - destruct (startswith content_type "text/") eqn:E1;
      [intros _; eexists; split; [|exact E1]; simpl; tauto|].
    destruct (startswith content_type "application/javascript") eqn:E2;
      [intros _; eexists; split; [|exact E2]; simpl; tauto|].
    destruct (startswith content_type "application/json") eqn:E3;
      [intros _; eexists; split; [|exact E3]; simpl; tauto|].
    destruct (startswith content_type "image/svg+xml") eqn:E4;
      [intros _; eexists; split; [|exact E4]; simpl; tauto|].
    discriminate.
  - intros [p [Hin Hp]]. simpl in Hin.
    destruct Hin as [<-|[<-|[<-|[<-|[]]]]]; rewrite Hp;
      repeat match goal with |- context [if ?b then true else _] => destruct b end;
      reflexivity.
Qed.

Lemma is_binary_content_eq (headers : multidict) :
  has_values headers ->
  _is_binary_content headers =
  Ok (negb (String.eqb (header_first_value "content-encoding" "identity" headers)
                       "identity")
      || negb (_is_text_content_type
                 (header_first_value "content-type" "text/plain" headers))).
Proof.
  intros Hv. unfold _is_binary_content.
  rewrite (scan_content_headers_spec Hv). simpl.
  destruct (String.eqb _ "identity"); simpl; [|reflexivity].
  destruct (_is_text_content_type _); reflexivity.
Qed.

(** C1.  For a headers mapping in which every header carries a value: when
    the first value of Content-Encoding (identity when absent) is not
    identity the body is binary; otherwise it is text exactly when the first
    value of Content-Type (text/plain when absent) starts with text/,
    application/javascript, application/json or image/svg+xml, and binary
    in every other case.  Identity together with application/json gives
    text, image/png gives binary. *)
Theorem is_binary_content_decision (headers : multidict) :
  has_values headers ->
  let content_encoding :=
    header_first_value "content-encoding" "identity" headers in
  let content_type := header_first_value "content-type" "text/plain" headers in
  (content_encoding <> "identity" -> _is_binary_content headers = Ok true) /\
  (content_encoding = "identity" ->
     (_is_binary_content headers = Ok false <->
      starts_with_text_prefix content_type) /\
     (_is_binary_content headers = Ok true <->
      ~ starts_with_text_prefix content_type)) /\
  (content_encoding = "identity" -> content_type = "application/json" ->
     _is_binary_content headers = Ok false) /\
  (content_type = "image/png" -> _is_binary_content headers = Ok true) /\
  _is_binary_content
    [("Content-Encoding", ["identity"]); ("Content-Type", ["application/json"])]
    = Ok false /\
  _is_binary_content [("Content-Type", ["image/png"])] = Ok true.
Proof.
  intros Hv content_encoding content_type.
  pose proof (is_binary_content_eq Hv) as E.
  fold content_encoding content_type in E.
  pose proof (is_text_content_type_iff content_type) as T.
  repeat split.
  - intros Hne. rewrite E. apply String.eqb_neq in Hne. rewrite Hne. reflexivity.
  - rewrite E, H, String.eqb_refl. simpl.
    destruct (_is_text_content_type content_type); [tauto | discriminate].
  - intros Hs. rewrite E, H, String.eqb_refl. simpl.
    apply T in Hs. rewrite Hs. reflexivity.
  - rewrite E, H, String.eqb_refl. simpl.
    destruct (_is_text_content_type content_type) eqn:Ht.
    + discriminate.
    + intros _ Hs. apply T in Hs. congruence.
  - intros Hn. rewrite E, H, String.eqb_refl. simpl.
    destruct (_is_text_content_type content_type) eqn:Ht; [|reflexivity].
    exfalso. apply Hn, T. reflexivity.
  - intros He Ht. rewrite E, He, Ht. reflexivity.
  - intros Ht. rewrite E, Ht. simpl. apply f_equal, orb_true_r.
Qed.

Lemma is_binary_content_decision_witness :
  has_values [("content-type", ["text/html"; "x"]);
              ("Content-Encoding", ["gzip"])] /\
  _is_binary_content [("content-type", ["text/html"; "x"]);
                      ("Content-Encoding", ["gzip"])] = Ok true.
Proof.
  assert (Hv : has_values [("content-type", ["text/html"; "x"]);
                           ("Content-Encoding", ["gzip"])])
    by (repeat constructor; discriminate).
  split; [exact Hv|].
  apply (proj1 (is_binary_content_decision Hv)).
  vm_compute. discriminate.
Defined.

(** ** Dicts *)

Lemma get_set_same {V} k (v : V) d : get k (set k v d) = Some v.
Proof.
  induction d as [|[k' v'] d IH]; simpl.
  - now rewrite String.eqb_refl.
  - destruct (String.eqb k' k) eqn:E; simpl.
    + now rewrite String.eqb_refl.
    + now rewrite E.
Qed.

Lemma get_set_other {V} k k' (v : V) d :
  k' <> k -> get k' (set k v d) = get k' d.
Proof.
  intros Hne. induction d as [|[k0 v0] d IH]; simpl.
  - apply not_eq_sym, String.eqb_neq in Hne. now rewrite Hne.
  - destruct (String.eqb k0 k) eqn:E; simpl.
    + apply String.eqb_eq in E. subst k0.
      apply not_eq_sym, String.eqb_neq in Hne. now rewrite Hne.
    + destruct (String.eqb k0 k'); [reflexivity | exact IH].
Qed.

Lemma get_None {V} k (d : dict V) : get k d = None <-> ~ In k (keys d).
Proof.
  induction d as [|[k' v'] d IH]; simpl.
  - tauto.
  - destruct (String.eqb k' k) eqn:E.
    + apply String.eqb_eq in E. split; [discriminate | tauto].
    + apply String.eqb_neq in E. rewrite IH. tauto.
Qed.

Lemma get_In {V} k (v : V) d : wf d -> (get k d = Some v <-> In (k, v) d).
Proof.
  unfold wf. induction d as [|[k' v'] d IH]; simpl; intros Hwf.
  - split; [discriminate | tauto].
  - inversion Hwf as [|? ? Hnotin Hwf']; subst.
    destruct (String.eqb k' k) eqn:E.
    + apply String.eqb_eq in E. subst k'. split.
      * intros [= ->]. now left.
      * intros [[= ->]|Hin]; [reflexivity|].
        exfalso. apply Hnotin. change k with (fst (k, v)). now apply in_map.
    + apply String.eqb_neq in E. rewrite (IH Hwf'). split.
      * tauto.
      * intros [[= -> ->]|Hin]; [congruence | exact Hin].
Qed.

Lemma set_fresh {V} k (v : V) d : ~ In k (keys d) -> set k v d = d ++ [(k, v)].
Proof.
  induction d as [|[k' v'] d IH]; simpl; intros Hn.
  - reflexivity.
  - destruct (String.eqb k' k) eqn:E.
    + apply String.eqb_eq in E. tauto.
    + rewrite IH by tauto. reflexivity.
Qed.

Lemma keys_set {V} k (v : V) d :
  keys (set k v d) = if contains k d then keys d else keys d ++ [k].
Proof.
  unfold contains. induction d as [|[k' v'] d IH]; simpl.
  - reflexivity.
  - destruct (String.eqb k' k) eqn:E; simpl.
    + apply String.eqb_eq in E. now subst.
    + rewrite IH. now destruct (get k d).
Qed.

Lemma wf_set {V} k (v : V) d : wf d -> wf (set k v d).
Proof.
  unfold wf. intros Hwf. rewrite keys_set. unfold contains.
  destruct (get k d) eqn:E; [exact Hwf|].
  apply get_None in E.
  apply NoDup_rev in Hwf. rewrite <- (rev_involutive (keys d ++ [k])).
  apply NoDup_rev. rewrite rev_app_distr. simpl. constructor; [|exact Hwf].
  now rewrite <- in_rev.
Qed.

Lemma fold_set_wf {V} (l : list (string * V)) :
  forall acc, wf (acc ++ l) ->
    fold_left (fun d kv => set (fst kv) (snd kv) d) l acc = acc ++ l.
Proof.
  unfold wf, keys. induction l as [|[k v] l IH]; intros acc Hwf; simpl.
  - now rewrite app_nil_r.
  - rewrite set_fresh.
    + rewrite IH; rewrite <- app_assoc; [reflexivity | exact Hwf].
    + rewrite map_app in Hwf. simpl in Hwf.
      apply NoDup_remove_2 in Hwf. intros Hin. apply Hwf.
      apply in_or_app. now left.
Qed.

Lemma of_items_wf {V} (l : list (string * V)) : wf l -> of_items l = l.
Proof. intros Hwf. unfold of_items. now rewrite fold_set_wf. Qed.

Lemma wf_fold_set {V} (l : list (string * V)) :
  forall acc, wf acc ->
    wf (fold_left (fun d kv => set (fst kv) (snd kv) d) l acc).
Proof.
  induction l as [|[k v] l IH]; intros acc Hwf; simpl.
  - exact Hwf.
  - apply IH, wf_set, Hwf.
Qed.

Lemma wf_of_items {V} (l : list (string * V)) : wf (of_items l).
Proof. apply wf_fold_set. constructor. Qed.

Lemma wf_filter {V} (f : string * V -> bool) (d : dict V) :
  wf d -> wf (filter f d).
Proof.
  unfold wf, keys. induction d as [|[k v] d IH]; simpl; intros Hwf.
  - constructor.
  - inversion Hwf as [|? ? Hnotin Hwf']; subst.
    destruct (f (k, v)); simpl; [|now apply IH].
    constructor; [|now apply IH].
    intros Hin. apply Hnotin. apply in_map_iff in Hin.
    destruct Hin as [[k' v'] [Hk Hin]]. simpl in Hk. subst k'.
    apply filter_In in Hin. change k with (fst (k, v')).
    apply in_map. tauto.
Qed.

Lemma keys_map_values {V W} (g : V -> W) (d : dict V) :
  keys (map (fun '(k, v) => (k, g v)) d) = keys d.
Proof.
  unfold keys. rewrite map_map. apply map_ext. now intros [k v].
Qed.

(** ** Gateway reply: headers and cookies *)


Lemma serialize_headers_wf (response_headers : multidict) :
  wf response_headers ->
  serialize_headers response_headers =
  map (fun '(name, values) => (name, join "," values))
      (filter (fun '(name, _) => negb (String.eqb (lower name) "set-cookie")) response_headers).
Proof.
  intros Hwf. unfold serialize_headers. apply of_items_wf.
  unfold wf. rewrite keys_map_values. now apply wf_filter.
Qed.

Lemma serialize_headers_lookup (response_headers : multidict) name :
  wf response_headers ->
  get name (serialize_headers response_headers) =
  if String.eqb (lower name) "set-cookie" then None
  else option_map (join ",") (get name response_headers).
Proof.
  intros Hwf. rewrite serialize_headers_wf by exact Hwf. clear Hwf.
  induction response_headers as [|[k values] rest IH]; simpl.
  - now destruct (String.eqb (lower name) "set-cookie").
  - destruct (String.eqb k name) eqn:E.
    + apply String.eqb_eq in E. subst k.
      destruct (String.eqb (lower name) "set-cookie") eqn:Hc; simpl.
      * exact IH.
      * now rewrite String.eqb_refl.
    + destruct (String.eqb (lower k) "set-cookie"); simpl; [exact IH|].
      rewrite E. exact IH.
Qed.

Lemma serialize_cookies_In (response_headers : multidict) cookie :
  In cookie (serialize_cookies response_headers) <->
  exists name values,
    In (name, values) response_headers /\ String.eqb (lower name) "set-cookie" = true /\
    In cookie values.
Proof.
  unfold serialize_cookies. rewrite in_flat_map. split.
  - intros [[name values] [Hin Hc]]. apply filter_In in Hin.
    exists name, values. tauto.
  - intros [name [values [Hin [Hn Hc]]]]. exists (name, values).
    split; [|exact Hc]. apply filter_In. tauto.
Qed.

Lemma filter_single {V} (f : string * V -> bool) (d : dict V) k v :
  wf d -> In (k, v) d -> f (k, v) = true ->
  (forall k' v', In (k', v') d -> f (k', v') = true -> k' = k) ->
  filter f d = [(k, v)].
Proof.
  unfold wf, keys. induction d as [|[k0 v0] d IH]; simpl; intros Hwf Hin Hf Huniq.
  - tauto.
  - inversion Hwf as [|? ? Hnotin Hwf']; subst.
    destruct Hin as [[= -> ->]|Hin].
    + rewrite Hf. f_equal.
      destruct (filter f d) as [|[k1 v1] r] eqn:E; [reflexivity|].
      exfalso. assert (Hin1 : In (k1, v1) (filter f d)) by (rewrite E; now left).
      apply filter_In in Hin1. destruct Hin1 as [Hin1 Hf1].
      assert (k1 = k) by (eapply Huniq; eauto). subst k1.
      apply Hnotin. change k with (fst (k, v1)). now apply in_map.
    + destruct (f (k0, v0)) eqn:Hf0.
      * exfalso. assert (k0 = k) by (eapply Huniq; eauto). subst k0.
        apply Hnotin. change k with (fst (k, v)). now apply in_map.
      * apply IH; eauto.
Qed.

(** C5.  In the reply of the gateway adapter no header named Set-Cookie
    (in any casing) is in the headers map, every value of such a header is
    in the cookies list, and every other header is in the headers map with
    its values joined by commas.  A response whose Set-Cookie header has two
    values gives a cookies list of length 2 and no Set-Cookie entry. *)
Theorem set_cookie_goes_to_cookies (response_headers : multidict) :
  wf response_headers ->
  (forall name, lower name = "set-cookie" ->
     get name (serialize_headers response_headers) = None) /\
  (forall name values cookie,
     get name response_headers = Some values -> lower name = "set-cookie" ->
     In cookie values -> In cookie (serialize_cookies response_headers)) /\
  (forall cookie, In cookie (serialize_cookies response_headers) ->
     exists name values,
       get name response_headers = Some values /\ lower name = "set-cookie" /\
       In cookie values) /\
  (forall name values,
     get name response_headers = Some values -> lower name <> "set-cookie" ->
     get name (serialize_headers response_headers) = Some (join "," values)) /\
  (forall name joined,
     get name (serialize_headers response_headers) = Some joined ->
     exists values,
       get name response_headers = Some values /\ joined = join "," values) /\
  (forall name a b,
     get name response_headers = Some [a; b] -> lower name = "set-cookie" ->
     (forall other, In other (keys response_headers) ->
        lower other = "set-cookie" -> other = name) ->
     serialize_cookies response_headers = [a; b] /\
     length (serialize_cookies response_headers) = 2 /\
     forall n, lower n = "set-cookie" ->
       get n (serialize_headers response_headers) = None).
Proof.
  intros Hwf.
  assert (Hnone : forall name, lower name = "set-cookie" ->
            get name (serialize_headers response_headers) = None).
  { intros name Hn. rewrite serialize_headers_lookup by exact Hwf.
    now rewrite Hn. }
  split; [exact Hnone|]. split; [|split; [|split; [|split]]].
  - intros name values cookie Hget Hn Hc. apply serialize_cookies_In.
    exists name, values. split; [now apply get_In|].
    rewrite Hn. now split.
  - intros cookie Hc. apply serialize_cookies_In in Hc.
    destruct Hc as [name [values [Hin [Hn Hc]]]]. exists name, values.
    split; [now apply get_In|]. split; [now apply String.eqb_eq|exact Hc].
  - intros name values Hget Hn. rewrite serialize_headers_lookup by exact Hwf.
    apply String.eqb_neq in Hn. now rewrite Hn, Hget.
  - intros name joined Hget. rewrite serialize_headers_lookup in Hget by exact Hwf.
    destruct (String.eqb (lower name) "set-cookie"); [discriminate|].
    destruct (get name response_headers) as [values|]; [|discriminate].
    exists values. split; [reflexivity|]. simpl in Hget. congruence.
  - intros name a b Hget Hn Huniq.
    assert (E : serialize_cookies response_headers = [a; b]).
    { unfold serialize_cookies.
      rewrite (@filter_single _ _ response_headers name [a; b]).
      - reflexivity.
      - exact Hwf.
      - now apply get_In.
      - now apply String.eqb_eq.
      - intros k' v' Hin Hk. apply Huniq.
        + change k' with (fst (k', v')). now apply in_map.
        + now apply String.eqb_eq. }
    rewrite E. repeat split. exact Hnone.
Qed.

Lemma set_cookie_goes_to_cookies_witness :
  wf [("Content-Type", ["text/html"; "charset=utf-8"]);
      ("set-cookie", ["a=1"; "b=2"])] /\
  serialize_headers [("Content-Type", ["text/html"; "charset=utf-8"]);
                     ("set-cookie", ["a=1"; "b=2"])]
    = [("Content-Type", "text/html,charset=utf-8")] /\
  get "Content-Type"
      (serialize_headers [("Content-Type", ["text/html"; "charset=utf-8"]);
                          ("set-cookie", ["a=1"; "b=2"])])
    = Some "text/html,charset=utf-8" /\
  length (serialize_cookies [("Content-Type", ["text/html"; "charset=utf-8"]);
                             ("set-cookie", ["a=1"; "b=2"])]) = 2.
Proof.
  assert (Hwf : wf [("Content-Type", ["text/html"; "charset=utf-8"]);
                    ("set-cookie", ["a=1"; "b=2"])]).
  { unfold wf. simpl. repeat constructor; simpl; intuition discriminate. }
  split; [exact Hwf|]. split; [reflexivity|].
  destruct (set_cookie_goes_to_cookies Hwf) as (_ & _ & _ & Hother & _ & Htwo).
  split.
  - apply (Hother "Content-Type" ["text/html"; "charset=utf-8"]);
      [reflexivity | vm_compute; discriminate].
  - refine (proj1 (proj2 (Htwo "set-cookie" "a=1" "b=2" _ _ _)));
      [reflexivity | reflexivity |].
    simpl. intros other [<-|[<-|[]]]; [vm_compute; discriminate | reflexivity].
Defined.

(** ** Gateway request: cookies *)

Lemma add_cookies_step cookie rest (headers : multidict) :
  add_cookies (cookie :: rest) headers =
  add_cookies rest (set "Cookie" (values_of "Cookie" headers ++ [cookie]) headers).
Proof. simpl. unfold values_of. now destruct (get "Cookie" headers). Qed.

Lemma add_cookies_lookup_Cookie cookies : forall headers : multidict,
  get "Cookie" (add_cookies cookies headers) =
  match cookies with
  | [] => get "Cookie" headers
  | _ :: _ => Some (values_of "Cookie" headers ++ cookies)
  end.
Proof.
  induction cookies as [|cookie rest IH]; intros headers.
  - reflexivity.
  - rewrite add_cookies_step, IH. destruct rest as [|c' rest'].
    + apply get_set_same.
    + unfold values_of at 1. rewrite get_set_same, <- app_assoc. reflexivity.
Qed.

Lemma add_cookies_lookup_other cookies name : forall headers : multidict,
  name <> "Cookie" -> get name (add_cookies cookies headers) = get name headers.
Proof.
  induction cookies as [|cookie rest IH]; intros headers Hne.
  - reflexivity.
  - rewrite add_cookies_step, IH by exact Hne. now apply get_set_other.
Qed.

Lemma get_app_fresh {V} k (v : V) d :
  ~ In k (keys d) -> get k (d ++ [(k, v)]) = Some v.
Proof.
  induction d as [|[k' v'] d IH]; simpl; intros Hn.
  - now rewrite String.eqb_refl.
  - destruct (String.eqb k' k) eqn:E.
    + apply String.eqb_eq in E. tauto.
    + apply IH. tauto.
Qed.

Lemma set_app_fresh {V} k (v w : V) d :
  ~ In k (keys d) -> set k w (d ++ [(k, v)]) = d ++ [(k, w)].
Proof.
  induction d as [|[k' v'] d IH]; simpl; intros Hn.
  - now rewrite String.eqb_refl.
  - destruct (String.eqb k' k) eqn:E.
    + apply String.eqb_eq in E. tauto.
    + rewrite IH by tauto. reflexivity.
Qed.

Lemma add_cookies_last cookies : forall (headers : multidict) values,
  ~ In "Cookie" (keys headers) ->
  add_cookies cookies (headers ++ [("Cookie", values)]) =
  headers ++ [("Cookie", values ++ cookies)].
Proof.
  induction cookies as [|cookie rest IH]; intros headers values Hn.
  - now rewrite app_nil_r.
  - rewrite add_cookies_step. unfold values_of.
    rewrite get_app_fresh, set_app_fresh, IH, <- app_assoc by exact Hn.
    reflexivity.
Qed.

Lemma add_cookies_fresh cookie rest (headers : multidict) :
  ~ In "Cookie" (keys headers) ->
  add_cookies (cookie :: rest) headers = headers ++ [("Cookie", cookie :: rest)].
Proof.
  intros Hn. rewrite add_cookies_step. unfold values_of.
  assert (E : get "Cookie" headers = None) by now apply get_None.
  rewrite E, set_fresh by exact Hn. simpl. now apply add_cookies_last.
Qed.

Lemma headers_named_none name (headers : multidict) :
  (forall n, In n (keys headers) -> lower n <> name) ->
  headers_named name headers = [].
Proof.
  unfold headers_named. induction headers as [|[n values] rest IH]; simpl; intros Hn.
  - reflexivity.
  - assert (E : String.eqb (lower n) name = false)
      by (apply String.eqb_neq, Hn; now left).
    rewrite E. apply IH. intros n' Hin. apply Hn. now right.
Qed.

(** C4, as the code has it.  Each cookie of the event is appended, in
    order, to the values of the header spelled exactly Cookie, which is
    created after the other headers when absent; no value is replaced and
    every header of another name, a Cookie header in another casing
    included, keeps its values.  Cookies a=1, b=2 with no Cookie header in
    any casing give a single Cookie header with values a=1, b=2. *)
Theorem cookies_appended_to_Cookie (event : gateway_event) :
  (cookie_list event <> [] ->
   get "Cookie" (request_headers event) =
   Some (values_of "Cookie" (split_headers event) ++ cookie_list event)) /\
  (cookie_list event = [] -> request_headers event = split_headers event) /\
  (forall name, name <> "Cookie" ->
     get name (request_headers event) = get name (split_headers event)) /\
  (cookie_list event <> [] ->
   (forall name, In name (keys (split_headers event)) -> lower name <> "cookie") ->
   request_headers event = split_headers event ++ [("Cookie", cookie_list event)] /\
   headers_named "cookie" (request_headers event) = [("Cookie", cookie_list event)]) /\
  (cookie_list event = ["a=1"; "b=2"] ->
   (forall name, In name (keys (split_headers event)) -> lower name <> "cookie") ->
   headers_named "cookie" (request_headers event) = [("Cookie", ["a=1"; "b=2"])]).
Proof.
  unfold request_headers.
  assert (Hfresh : cookie_list event <> [] ->
    (forall name, In name (keys (split_headers event)) -> lower name <> "cookie") ->
    add_cookies (cookie_list event) (split_headers event) =
      split_headers event ++ [("Cookie", cookie_list event)] /\
    headers_named "cookie" (add_cookies (cookie_list event) (split_headers event)) =
      [("Cookie", cookie_list event)]).
  { intros Hne Hnone.
    assert (E : add_cookies (cookie_list event) (split_headers event) =
                split_headers event ++ [("Cookie", cookie_list event)]).
    { destruct (cookie_list event) as [|cookie rest]; [congruence|].
      apply add_cookies_fresh. intros Hin. now apply (Hnone _ Hin). }
    split; [exact E|]. rewrite E. unfold headers_named. rewrite filter_app.
    fold (headers_named "cookie" (split_headers event)).
    rewrite headers_named_none by exact Hnone. reflexivity. }
  split; [|split; [|split; [|split]]].
  - intros Hne. rewrite add_cookies_lookup_Cookie.
    destruct (cookie_list event); [congruence | reflexivity].
  - intros ->. reflexivity.
  - intros name Hne. now apply add_cookies_lookup_other.
  - exact Hfresh.
  - intros E Hnone. rewrite <- E. apply Hfresh; [|exact Hnone].
    rewrite E. discriminate.
Qed.

Lemma cookies_appended_to_Cookie_witness :
  cookie_list lowercase_cookie_event <> [] /\
  get "Cookie" (request_headers lowercase_cookie_event) = Some ["a=1"] /\
  get "cookie" (request_headers lowercase_cookie_event) = Some ["x=1"] /\
  cookie_list two_cookies_event = ["a=1"; "b=2"] /\
  headers_named "cookie" (request_headers two_cookies_event)
    = [("Cookie", ["a=1"; "b=2"])].
Proof.
  assert (Hne : cookie_list lowercase_cookie_event <> []) by discriminate.
  split; [exact Hne|]. split; [|split; [|split; [reflexivity|]]].
  - exact (proj1 (cookies_appended_to_Cookie lowercase_cookie_event) Hne).
  - refine (proj1 (proj2 (proj2 (cookies_appended_to_Cookie
                                   lowercase_cookie_event))) "cookie" _).
    discriminate.
  - refine (proj2 (proj2 (proj2 (proj2 (cookies_appended_to_Cookie
                                          two_cookies_event)))) eq_refl _).
    simpl. intros name [<-|[]]. discriminate.
Defined.

(** C4, as stated, fails.  With a lower-case cookie header in the event
    the cookies go to a second header, Cookie, and the cookie header is not
    extended; with the header in two spellings the cookie lands between the
    values already there. *)
Lemma cookie_header_in_other_case_not_extended :
  request_headers lowercase_cookie_event =
    [("accept", ["text/html"; "application/json"]);
     ("cookie", ["x=1"]);
     ("Cookie", ["a=1"])] /\
  ~ cookies_appended_ignoring_case lowercase_cookie_event /\
  request_headers mixed_case_cookie_event =
    [("Cookie", ["x=1"; "a=1"]); ("cookie", ["y=2"])] /\
  ~ cookies_appended_ignoring_case mixed_case_cookie_event /\
  ~ cookies_appended_to_merged_header mixed_case_cookie_event.
Proof.
  split; [reflexivity|]. split; [|split; [reflexivity|split]].
  - intros H. specialize (H "cookie" ["x=1"] eq_refl eq_refl). discriminate H.
  - intros H. specialize (H "cookie" ["y=2"] eq_refl eq_refl). discriminate H.
  - intros H. discriminate H.
Qed.

(** ** Static file resolver *)

Lemma ascii_upper_idempotent c : ascii_upper (ascii_upper c) = ascii_upper c.
Proof. destruct c as [[] [] [] [] [] [] [] []]; reflexivity. Qed.

Lemma upper_idempotent s : upper (upper s) = upper s.
Proof.
  induction s as [|c s IH]; simpl.
  - reflexivity.
  - now rewrite ascii_upper_idempotent, IH.
Qed.

Lemma str_inj n m : str n = str m -> n = m.
Proof.
  unfold str. intros E. apply Unsigned.to_uint_inj.
  apply (f_equal NilEmpty.uint_of_string) in E.
  rewrite !NilEmpty.usu in E. congruence.
Qed.

Section static_handler_facts.

Variable static_path : string.
Variable fs : string -> string -> option fs_entry.
Variable guess_type : string -> option string.

Let resolve := _static_handler static_path fs guess_type.

Lemma mem_accepted method :
  mem method accepted_methods = true <-> method = "GET" \/ method = "HEAD".
Proof.
  unfold mem, accepted_methods. simpl. rewrite !orb_true_iff, !String.eqb_eq.
  intuition discriminate.
Qed.

Lemma static_rejects method path :
  upper method <> "GET" -> upper method <> "HEAD" ->
  resolve method path =
  (401%Z,
   [("Content-Length", ["11"]); ("Content-Type", ["text/plain"])],
   Some (list_byte_of_string "Bad Request")).
Proof.
  intros Hg Hh. unfold resolve, _static_handler.
  assert (E : mem (upper method) accepted_methods = false).
  { destruct (mem (upper method) accepted_methods) eqn:E; [|reflexivity].
    apply mem_accepted in E. tauto. }
  rewrite E. reflexivity.
Qed.

Lemma static_head_file method path content :
  upper method = "HEAD" ->
  fs static_path (lstrip "/" path) = Some (RegularFile content) ->
  status_of (resolve method path) = 200%Z /\
  headers_of (resolve method path) =
    [("Content-Length", [str (length content)]);
     ("Content-Type",
      [match guess_type path with
       | Some guessed_type =>
           if String.eqb guessed_type "" then "text/plain" else guessed_type
       | None => "text/plain"
       end])] /\
  body_of (resolve method path) = Some [].
Proof.
  intros Hm Hf. unfold resolve, _static_handler, path_exists, path_is_file,
    st_size, read_bytes.
  rewrite Hm, Hf. simpl. repeat split.
Qed.

Lemma static_matches_unless_head method path :
  ~ (upper method = "HEAD" /\
     exists content, fs static_path (lstrip "/" path) = Some (RegularFile content)) ->
  content_length_matches (resolve method path).
Proof.
  intros Hn. unfold resolve, _static_handler, path_exists, path_is_file,
    st_size, read_bytes.
  destruct (mem (upper method) accepted_methods) eqn:Ha; simpl.
  - destruct (fs static_path (lstrip "/" path)) as [[content|]|] eqn:Hf; simpl.
    + destruct (String.eqb (upper method) "HEAD") eqn:Hh.
      * apply String.eqb_eq in Hh. exfalso. apply Hn. eauto.
      * intros name values [[= <- <-]|[[= <- <-]|[]]] Hl;
          [reflexivity | discriminate Hl].
    + intros name values [[= <- <-]|[[= <- <-]|[]]] Hl;
        [reflexivity | discriminate Hl].
    + intros name values [[= <- <-]|[[= <- <-]|[]]] Hl;
        [reflexivity | discriminate Hl].
  - intros name values [[= <- <-]|[[= <- <-]|[]]] Hl;
      [reflexivity | discriminate Hl].
Qed.

End static_handler_facts.

(** C2, as the code has it.  A response of the static file resolver
    satisfies the Content-Length invariant unless it answers a HEAD request
    for an existing regular file; that response has an empty body and a
    Content-Length equal to the size of the file, so it satisfies the
    invariant only when the file is empty. *)
Theorem static_content_length
    (static_path : string) (fs : string -> string -> option fs_entry)
    (guess_type : string -> option string) (method path : string) :
  (~ (upper method = "HEAD" /\
      exists content,
        fs static_path (lstrip "/" path) = Some (RegularFile content)) ->
   content_length_matches (_static_handler static_path fs guess_type method path)) /\
  (forall content,
     upper method = "HEAD" ->
     fs static_path (lstrip "/" path) = Some (RegularFile content) ->
     body_of (_static_handler static_path fs guess_type method path) = Some [] /\
     get "Content-Length"
         (headers_of (_static_handler static_path fs guess_type method path))
       = Some [str (length content)] /\
     (content_length_matches (_static_handler static_path fs guess_type method path)
      <-> content = [])).
Proof.
  split.
  - apply static_matches_unless_head.
  - intros content Hm Hf.
    destruct (static_head_file static_path fs guess_type method path Hm Hf)
      as (_ & Hh & Hb).
    split; [exact Hb|]. split; [now rewrite Hh|].
    unfold content_length_matches. rewrite Hh, Hb. simpl. split.
    + intros H. specialize (H "Content-Length" [str (length content)]).
      assert (E : [str (length content)] = [str 0])
        by (apply H; [now left | reflexivity]).
      injection E as E. apply str_inj in E. now apply length_zero_iff_nil.
    + intros -> name values [[= <- <-]|[[= <- <-]|[]]] Hl;
        [reflexivity | discriminate Hl].
Qed.

Lemma static_content_length_witness :
  upper "head" = "HEAD" /\
  sample_fs "app/build" (lstrip "/" "/index.html")
    = Some (RegularFile (list_byte_of_string "<html></html>")) /\
  body_of (sample_static_handler "head" "/index.html") = Some [] /\
  get "Content-Length" (headers_of (sample_static_handler "head" "/index.html"))
    = Some ["13"] /\
  content_length_matches (sample_static_handler "GET" "/index.html").
Proof.
  split; [reflexivity|]. split; [reflexivity|].
  destruct (static_content_length "app/build" sample_fs sample_guess_type
              "head" "/index.html") as [_ Hhead].
  destruct (Hhead (list_byte_of_string "<html></html>") eq_refl eq_refl)
    as (Hb & Hl & _).
  split; [exact Hb|]. split; [exact Hl|].
  apply (proj1 (static_content_length "app/build" sample_fs sample_guess_type
                  "GET" "/index.html")).
  intros [Hm _]. discriminate Hm.
Defined.

(** C2, as stated, fails: the answer to HEAD /index.html declares the 13
    bytes of the file and carries no body. *)
Lemma head_content_length_differs_from_body :
  sample_static_handler "HEAD" "/index.html" =
    (200%Z,
     [("Content-Length", ["13"]); ("Content-Type", ["text/html"])],
     Some []) /\
  ~ content_length_matches (sample_static_handler "HEAD" "/index.html").
Proof.
  split; [reflexivity|].
  intros H. specialize (H "Content-Length" ["13"] (or_introl eq_refl) eq_refl).
  discriminate H.
Qed.

(** C6.  For a method that is neither GET nor HEAD once put in upper
    case, and for every path, the static file resolver answers 401 with body
    Bad Request, whether or not the path names a file. *)
Theorem static_rejects_other_methods
    (static_path : string) (fs : string -> string -> option fs_entry)
    (guess_type : string -> option string) (method path : string) :
  upper method <> "GET" -> upper method <> "HEAD" ->
  status_of (_static_handler static_path fs guess_type method path) = 401%Z /\
  body_of (_static_handler static_path fs guess_type method path)
    = Some (list_byte_of_string "Bad Request") /\
  _static_handler static_path fs guess_type method path =
    (401%Z,
     [("Content-Length", ["11"]); ("Content-Type", ["text/plain"])],
     Some (list_byte_of_string "Bad Request")).
Proof.
  intros Hg Hh.
  rewrite (static_rejects static_path fs guess_type method path Hg Hh).
  repeat split.
Qed.

Lemma static_rejects_other_methods_witness :
  upper "post" <> "GET" /\ upper "post" <> "HEAD" /\
  path_is_file "app/build" sample_fs (lstrip "/" "/index.html") = true /\
  status_of (sample_static_handler "post" "/index.html") = 401%Z /\
  body_of (sample_static_handler "post" "/index.html")
    = Some (list_byte_of_string "Bad Request").
Proof.
  assert (Hg : upper "post" <> "GET") by discriminate.
  assert (Hh : upper "post" <> "HEAD") by discriminate.
  split; [exact Hg|]. split; [exact Hh|]. split; [reflexivity|].
  destruct (static_rejects_other_methods "app/build" sample_fs sample_guess_type
              "post" "/index.html" Hg Hh) as (Hs & Hb & _).
  split; [exact Hs | exact Hb].
Defined.

(** C10.  The method check of the static file resolver ignores case:
    resolving with a method gives the response of resolving with that method
    in upper case; get is served like GET. *)
Theorem static_method_case_insensitive
    (static_path : string) (fs : string -> string -> option fs_entry)
    (guess_type : string -> option string) (method path : string) :
  _static_handler static_path fs guess_type method path =
  _static_handler static_path fs guess_type (upper method) path /\
  _static_handler static_path fs guess_type "get" path =
  _static_handler static_path fs guess_type "GET" path.
Proof.
  split.
  - unfold _static_handler. rewrite upper_idempotent. reflexivity.
  - reflexivity.
Qed.

(** ** Request router *)

(** C3.  Whatever the method, query, headers, body and time-out, routing
    the path / gives the response of routing /index.html: both are the
    static resolution of /index.html with the method unchanged. *)
Theorem root_routes_to_index
    (static_path api_server_host : string) (api_server_port : nat)
    (fs : string -> string -> option fs_entry)
    (guess_type : string -> option string)
    (urlencode : multidict -> string)
    (http_exchange :
       string -> nat -> Q -> string -> string -> list (string * string) ->
       option payload -> outcome (Z * list (string * string) * bytes))
    (method : string) (query headers : multidict) (body : option payload)
    (timeout : Q) :
  _root_handler static_path api_server_host api_server_port fs guess_type
                urlencode http_exchange method "/" query headers body timeout =
  _root_handler static_path api_server_host api_server_port fs guess_type
                urlencode http_exchange method "/index.html" query headers body
                timeout /\
  _root_handler static_path api_server_host api_server_port fs guess_type
                urlencode http_exchange method "/" query headers body timeout =
  Ok (_static_handler static_path fs guess_type method "/index.html").
Proof. split; reflexivity. Qed.

(** C8.  Two requests with the same method and the same path, the path not
    starting with /api/, get the same response whatever their queries,
    headers, bodies and time-outs: a static response depends on the method
    and the path only. *)
Theorem static_routes_depend_on_method_and_path
    (static_path api_server_host : string) (api_server_port : nat)
    (fs : string -> string -> option fs_entry)
    (guess_type : string -> option string)
    (urlencode : multidict -> string)
    (http_exchange :
       string -> nat -> Q -> string -> string -> list (string * string) ->
       option payload -> outcome (Z * list (string * string) * bytes))
    (method path : string)
    (query1 headers1 : multidict) (body1 : option payload) (timeout1 : Q)
    (query2 headers2 : multidict) (body2 : option payload) (timeout2 : Q) :
  startswith path "/api/" = false ->
  _root_handler static_path api_server_host api_server_port fs guess_type
                urlencode http_exchange method path query1 headers1 body1
                timeout1 =
  _root_handler static_path api_server_host api_server_port fs guess_type
                urlencode http_exchange method path query2 headers2 body2
                timeout2.
Proof.
  intros Hapi. unfold _root_handler. rewrite Hapi. reflexivity.
Qed.

Lemma static_routes_depend_on_method_and_path_witness :
  startswith "/index.html" "/api/" = false /\
  sample_proxy_app "GET" "/index.html" [("v", ["1"])] [("Accept", ["*/*"])]
                   None 15 =
  sample_proxy_app "GET" "/index.html" [] [("Cookie", ["a=1"; "b=2"])]
                   (Some (Text "ignored")) (1 # 2).
Proof.
  split; [reflexivity|].
  apply (static_routes_depend_on_method_and_path
           "app/build" "localhost" 8180 sample_fs sample_guess_type
           sample_urlencode sample_http_exchange "GET" "/index.html").
  reflexivity.
Defined.

(** ** Backend process manager *)

Section probe_loop_facts.

Variable connect_ex : nat -> string -> nat -> Z.
Variable monotonic : nat -> Q.
Variable process : Popen.
Variable host : string.
Variable port : nat.
Variable end_time : Q.

Lemma wait_for_port_skip n : forall fuel attempt trace,
(forall i, i < n ->
   connect_ex (attempt + i) host port <> 0%Z /\
   ~ (end_time <= monotonic (S (attempt + i)))%Q) ->
wait_for_port connect_ex monotonic (n + fuel) process host port end_time
              attempt trace =
wait_for_port connect_ex monotonic fuel process host port end_time
              (attempt + n)
              (trace ++ failed_attempts connect_ex monotonic host port n attempt).
Proof.
induction n as [|n IH]; intros fuel attempt trace Hfail.
- simpl. now rewrite Nat.add_0_r, app_nil_r.
- destruct (Hfail 0 (Nat.lt_0_succ n)) as [Hc Ht].
  rewrite Nat.add_0_r in Hc, Ht. simpl.
  apply Z.eqb_neq in Hc. rewrite Hc.
  destruct (Qle_bool end_time (monotonic (S attempt))) eqn:Hd.
  + apply Qle_bool_iff in Hd. contradiction.
  + rewrite IH.
    * rewrite Nat.add_succ_r, <- !app_assoc. reflexivity.
    * intros i Hi. rewrite Nat.add_succ_l, <- Nat.add_succ_r.
      apply Hfail. lia.
Qed.

Lemma wait_for_port_extends fuel : forall attempt trace r trace',
wait_for_port connect_ex monotonic fuel process host port end_time
              attempt trace = Some (r, trace') ->
exists rest, trace' = trace ++ rest.
Proof.
induction fuel as [|fuel IH]; intros attempt trace r trace' H; simpl in H.
- discriminate.
- destruct (Z.eqb (connect_ex attempt host port) 0).
  + injection H as _ <-. rewrite <- app_assoc. eauto.
  + destruct (Qle_bool end_time (monotonic (S attempt))).
    * injection H as _ <-. rewrite <- !app_assoc. eauto.
    * apply IH in H. destruct H as [rest ->]. rewrite <- !app_assoc. eauto.
Qed.

Lemma failed_attempts_quiet n : forall attempt,
filter is_spawn (failed_attempts connect_ex monotonic host port n attempt) = [] /\
filter is_terminate (failed_attempts connect_ex monotonic host port n attempt) = [] /\
length (filter is_connect
          (failed_attempts connect_ex monotonic host port n attempt)) = n.
Proof.
induction n as [|n IH]; intros attempt; simpl.
- repeat split.
- destruct (IH (S attempt)) as (Hs & Ht & Hc). repeat split; auto.
Qed.

End probe_loop_facts.

Lemma last_app_two {A} (l : list A) (a b d : A) : last (l ++ [a; b]) d = b.
Proof.
  change (l ++ [a; b]) with (l ++ [a] ++ [b]). rewrite app_assoc.
  apply last_last.
Qed.

Lemma start_after_failed_attempts
    (connect_ex : nat -> string -> nat -> Z) (monotonic : nat -> Q)
    (command host : string) (port : nat) (start_timeout : Z) (path : string)
    (n fuel : nat) :
  (forall i, i < n ->
     connect_ex i host port <> 0%Z /\
     ~ (monotonic 0%nat + inject_Z start_timeout <= monotonic (S i))%Q) ->
  start_api_server_process connect_ex monotonic (n + S fuel) command host port
                           start_timeout path =
  let process := spawn command port path in
  let trace :=
    [Spawn process; Clock (monotonic 0)]
    ++ failed_attempts connect_ex monotonic host port n 0
    ++ [Sleep (1 # 100); Connect host port (connect_ex n host port)] in
  if Z.eqb (connect_ex n host port) 0 then Some (Ok process, trace)
  else if Qle_bool (monotonic 0%nat + inject_Z start_timeout) (monotonic (S n))
       then Some (Raise (RuntimeError "Timeout waiting for API server to start"),
                  trace ++ [Clock (monotonic (S n)); Terminate process])
       else
         match wait_for_port connect_ex monotonic fuel process host port
                 (monotonic 0%nat + inject_Z start_timeout) (S n)
                 (trace ++ [Clock (monotonic (S n))]) with
         | Some (Ok _, trace') => Some (Ok process, trace')
         | Some (Raise e, trace') => Some (Raise e, trace')
         | None => None
         end.
Proof.
  intros Hfail. unfold start_api_server_process.
  rewrite wait_for_port_skip by exact Hfail. simpl.
  destruct (Z.eqb (connect_ex n host port) 0).
  - rewrite <- !app_assoc. reflexivity.
  - destruct (Qle_bool _ (monotonic (S n))).
    + rewrite <- !app_assoc. reflexivity.
    + rewrite <- !app_assoc. reflexivity.
Qed.

(** C7.  When the attempts up to some attempt all fail and the clock read
    after that attempt is the first to have reached the deadline, the process
    is spawned once, terminated, and the call raises the startup error: no
    handle is returned and nothing is tried again.  When an attempt connects
    and no earlier clock reading had reached the deadline, the handle of the
    process is returned and the process is not terminated. *)
Theorem startup_times_out_or_returns_handle
    (connect_ex : nat -> string -> nat -> Z) (monotonic : nat -> Q)
    (command host : string) (port : nat) (start_timeout : Z) (path : string)
    (n : nat) :
  (forall i, i < n ->
     connect_ex i host port <> 0%Z /\
     ~ (monotonic 0%nat + inject_Z start_timeout <= monotonic (S i))%Q) ->
  (connect_ex n host port <> 0%Z ->
   (monotonic 0%nat + inject_Z start_timeout <= monotonic (S n))%Q ->
   forall fuel, n < fuel ->
   exists trace,
     start_api_server_process connect_ex monotonic fuel command host port
                              start_timeout path
       = Some (Raise (RuntimeError "Timeout waiting for API server to start"),
               trace) /\
     last trace (Clock 0%Q) = Terminate (spawn command port path) /\
     filter is_terminate trace = [Terminate (spawn command port path)] /\
     filter is_spawn trace = [Spawn (spawn command port path)] /\
     length (filter is_connect trace) = S n) /\
  (connect_ex n host port = 0%Z ->
   forall fuel, n < fuel ->
   exists trace,
     start_api_server_process connect_ex monotonic fuel command host port
                              start_timeout path
       = Some (Ok (spawn command port path), trace) /\
     filter is_terminate trace = [] /\
     filter is_spawn trace = [Spawn (spawn command port path)] /\
     length (filter is_connect trace) = S n).
Proof.
  intros Hfail.
  destruct (failed_attempts_quiet connect_ex monotonic host port n 0)
    as (Hs & Ht & Hc).
  split.
  - intros Hrefused Hdeadline fuel Hfuel.
    replace fuel with (n + S (fuel - S n)) by lia.
    rewrite start_after_failed_attempts by exact Hfail. cbv zeta.
    apply Z.eqb_neq in Hrefused. rewrite Hrefused.
    apply Qle_bool_iff in Hdeadline. rewrite Hdeadline.
    eexists. split; [reflexivity|].
    rewrite last_app_two.
    rewrite !filter_app, Hs, Ht, !length_app, Hc. simpl.
    repeat split. lia.
  - intros Hopen fuel Hfuel.
    replace fuel with (n + S (fuel - S n)) by lia.
    rewrite start_after_failed_attempts by exact Hfail. cbv zeta.
    rewrite Hopen. simpl Z.eqb. cbv iota.
    eexists. split; [reflexivity|].
    rewrite !filter_app, Hs, Ht, !length_app, Hc. simpl.
    repeat split. lia.
Qed.

Lemma startup_times_out_or_returns_handle_witness :
  (exists trace,
     start_api_server_process sample_connect_ex sample_monotonic 3
       "python api/app.py" "localhost" 8180 5 "/usr/bin"
     = Some (Ok (spawn "python api/app.py" 8180 "/usr/bin"), trace) /\
     filter is_terminate trace = [] /\
     length (filter is_connect trace) = 3) /\
  (exists trace,
     start_api_server_process sample_connect_ex sample_monotonic 2
       "python api/app.py" "localhost" 8180 0 "/usr/bin"
     = Some (Raise (RuntimeError "Timeout waiting for API server to start"),
             trace) /\
     filter is_terminate trace
     = [Terminate (spawn "python api/app.py" 8180 "/usr/bin")]).
Proof.
  split.
  - assert (Hfail : forall i, i < 2 ->
              sample_connect_ex i "localhost" 8180 <> 0%Z /\
              ~ (sample_monotonic 0%nat + inject_Z 5 <= sample_monotonic (S i))%Q).
    { intros i Hi. destruct i as [|[|i]]; [| |lia];
        (split; [discriminate | intros H; vm_compute in H; apply H; reflexivity]). }
    destruct (proj2 (@startup_times_out_or_returns_handle
                       sample_connect_ex sample_monotonic "python api/app.py"
                       "localhost" 8180 5 "/usr/bin" 2 Hfail)
                    eq_refl 3 (Nat.lt_succ_diag_r 2))
      as (trace & Hrun & Hterm & _ & Hconn).
    exists trace. repeat split; assumption.
  - assert (Hfail : forall i, i < 0 ->
              sample_connect_ex i "localhost" 8180 <> 0%Z /\
              ~ (sample_monotonic 0%nat + inject_Z 0 <= sample_monotonic (S i))%Q)
      by (intros i Hi; inversion Hi).
    assert (Hrefused : sample_connect_ex 0 "localhost" 8180 <> 0%Z) by discriminate.
    assert (Hdeadline :
              (sample_monotonic 0%nat + inject_Z 0 <= sample_monotonic 1%nat)%Q)
      by (vm_compute; discriminate).
    destruct (proj1 (@startup_times_out_or_returns_handle
                       sample_connect_ex sample_monotonic "python api/app.py"
                       "localhost" 8180 0 "/usr/bin" 0 Hfail)
                    Hrefused Hdeadline 2 (Nat.lt_0_succ 1))
      as (trace & Hrun & _ & Hterm & _).
    exists trace. split; [exact Hrun | exact Hterm].
Defined.

(** C9.  The probe loop attempts a connection before it looks at the
    deadline: every run starts by spawning, fixing the deadline, sleeping and
    connecting, and when that first attempt connects the handle is returned,
    whatever the start time-out, zero and negative included, without any
    deadline check. *)
Theorem first_attempt_decides_before_deadline
    (connect_ex : nat -> string -> nat -> Z) (monotonic : nat -> Q)
    (command host : string) (port : nat) (start_timeout : Z) (path : string) :
  (connect_ex 0 host port = 0%Z ->
   forall fuel,
     start_api_server_process connect_ex monotonic (S fuel) command host port
                              start_timeout path
     = Some (Ok (spawn command port path),
             [Spawn (spawn command port path); Clock (monotonic 0);
              Sleep (1 # 100); Connect host port 0])) /\
  (forall fuel r trace,
     start_api_server_process connect_ex monotonic fuel command host port
                              start_timeout path = Some (r, trace) ->
     exists rest,
       trace = [Spawn (spawn command port path); Clock (monotonic 0);
                Sleep (1 # 100); Connect host port (connect_ex 0 host port)]
               ++ rest).
Proof.
  split.
  - intros Hopen fuel.
    assert (E := @start_after_failed_attempts connect_ex monotonic command host
                   port start_timeout path 0 fuel).
    change (0 + S fuel) with (S fuel) in E.
    rewrite E by (intros i Hi; inversion Hi).
    cbv zeta. rewrite Hopen. reflexivity.
  - intros [|fuel] r trace Hrun; [discriminate|].
    assert (E := @start_after_failed_attempts connect_ex monotonic command host
                   port start_timeout path 0 fuel).
    change (0 + S fuel) with (S fuel) in E.
    rewrite E in Hrun by (intros i Hi; inversion Hi).
    cbv zeta in Hrun. simpl app in Hrun.
    destruct (Z.eqb (connect_ex 0 host port) 0).
    + injection Hrun as _ <-. exists []. reflexivity.
    + destruct (Qle_bool _ (monotonic 1)).
      * injection Hrun as _ <-. eexists. reflexivity.
      * destruct (wait_for_port _ _ _ _ _ _ _ _ _) as [[r' trace']|] eqn:Hw;
          [|discriminate].
        apply wait_for_port_extends in Hw. destruct Hw as [rest ->].
        destruct r'; injection Hrun as _ <-; eexists; reflexivity.
Qed.

Lemma first_attempt_decides_before_deadline_witness :
  (fun _ _ _ => 0%Z) 0 "localhost" 8180 = 0%Z /\
  start_api_server_process (fun _ _ _ => 0%Z) sample_monotonic 1
    "python api/app.py" "localhost" 8180 (-3) "/usr/bin"
  = Some (Ok (spawn "python api/app.py" 8180 "/usr/bin"),
          [Spawn (spawn "python api/app.py" 8180 "/usr/bin"); Clock (0 # 100);
           Sleep (1 # 100); Connect "localhost" 8180 0]).
Proof.
  split; [reflexivity|].
  exact (proj1 (first_attempt_decides_before_deadline
                  (fun _ _ _ => 0%Z) sample_monotonic "python api/app.py"
                  "localhost" 8180 (-3) "/usr/bin") eq_refl 0).
Defined.

(** ** The pieces in their place *)

Lemma has_values_set (d : multidict) k values :
  has_values d -> values <> [] -> has_values (set k values d).
Proof.
  unfold has_values. intros Hd Hv.
  induction d as [|[k' v'] d IH]; simpl.
  - repeat constructor. exact Hv.
  - inversion Hd as [|? ? Hx Hd']; subst.
    destruct (String.eqb k' k); constructor; auto.
Qed.

Lemma group_headers_has_values lines : has_values (group_headers lines).
Proof.
  unfold group_headers.
  assert (H : forall acc : multidict, has_values acc ->
    has_values
      (fold_left
         (fun response_headers line =>
            let '(name, value) := line in
            match get name response_headers with
            | Some values => set name (values ++ [value]) response_headers
            | None => set name [value] response_headers
            end) lines acc)).
  { induction lines as [|[name value] lines IH]; intros acc Hacc; simpl.
    - exact Hacc.
    - apply IH. destruct (get name acc) as [values|].
      + apply has_values_set; [exact Hacc|]. now destruct values.
      + apply has_values_set; [exact Hacc | discriminate]. }
  apply H. constructor.
Qed.

Lemma static_handler_has_values static_path fs guess_type method path :
  has_values (headers_of (_static_handler static_path fs guess_type method path)).
Proof.
  unfold _static_handler.
  destruct (mem (upper method) accepted_methods && _ && _).
  - destruct (String.eqb (upper method) "HEAD"); simpl;
      repeat constructor; discriminate.
  - destruct (negb _); simpl; repeat constructor; discriminate.
Qed.

(** Every response of the router carries a value for each of its headers,
    so the binary content decision never indexes an empty sequence. *)
Lemma root_handler_has_values
    static_path api_server_host api_server_port fs guess_type urlencode
    http_exchange method path query headers body timeout r :
  _root_handler static_path api_server_host api_server_port fs guess_type
                urlencode http_exchange method path query headers body timeout
    = Ok r ->
  has_values (headers_of r).
Proof.
  unfold _root_handler, _api_server_handler.
  destruct (String.eqb path "/").
  - intros [= <-]. apply static_handler_has_values.
  - destruct (startswith path "/api/").
    + destruct (http_exchange _ _ _ _ _ _ _) as [[[status lines] b]|e]; simpl;
        [|discriminate].
      intros [= <-]. apply group_headers_has_values.
    + intros [= <-]. apply static_handler_has_values.
Qed.

(** The reply of the gateway adapter is built from the response of the
    router by the binary content decision and the two serializers, and the
    router is given the request headers built from the event. *)
Lemma lambda_handler_reply
    parse_qs standard_b64decode standard_b64encode proxy_app event
    remaining_time_in_millis reply :
  lambda_handler parse_qs standard_b64decode standard_b64encode proxy_app
                 event remaining_time_in_millis = Ok reply ->
  exists body status response_headers response_body is_binary,
    proxy_app (http_method event) (http_path event)
              (parse_qs (match rawQueryString event with
                         | Some s => s | None => "" end))
              (request_headers event) (Some body)
              (inject_Z remaining_time_in_millis / 1000 - 1)%Q
      = Ok (status, response_headers, response_body) /\
    _is_binary_content response_headers = Ok is_binary /\
    statusCode reply = status /\
    reply_headers reply = serialize_headers response_headers /\
    reply_cookies reply = serialize_cookies response_headers /\
    reply_isBase64Encoded reply = is_binary.
Proof.
  unfold lambda_handler.
  destruct (String.eqb (version event) "2.0"); simpl; [|discriminate].
  set (decoded := if isBase64Encoded event then _ else _).
  destruct decoded as [body|e]; simpl; [|discriminate].
  destruct (proxy_app _ _ _ _ _ _) as [[[status response_headers] response_body]|e]
    eqn:Hroute; simpl; [|discriminate].
  destruct (_is_binary_content response_headers) as [is_binary|e] eqn:Hbin;
    simpl; [|discriminate].
  intros Hreply. exists body, status, response_headers, response_body, is_binary.
  split; [exact Hroute|]. split; [exact Hbin|].
  destruct is_binary.
  - destruct response_body as [b|]; simpl in Hreply; [|discriminate].
    injection Hreply as <-. repeat split.
  - simpl in Hreply. injection Hreply as <-. repeat split.
Qed.

(** * Further properties of the code *)

(** ** Static file resolver, case by case *)

Lemma static_handler_cases
    (static_path : string) (fs : string -> string -> option fs_entry)
    (guess_type : string -> option string) (method path : string) :
  _static_handler static_path fs guess_type method path =
  if mem (upper method) accepted_methods then
    match fs static_path (lstrip "/" path) with
    | Some (RegularFile content) =>
        (200%Z,
         [("Content-Length", [str (length content)]);
          ("Content-Type", [content_type_for guess_type path])],
         Some (if String.eqb (upper method) "HEAD" then [] else content))
    | _ =>
        (404%Z,
         [("Content-Length", ["9"]); ("Content-Type", ["text/plain"])],
         Some (list_byte_of_string "Not Found"))
    end
  else
    (401%Z,
     [("Content-Length", ["11"]); ("Content-Type", ["text/plain"])],
     Some (list_byte_of_string "Bad Request")).
Proof.
  unfold _static_handler, path_exists, path_is_file, st_size, read_bytes,
    content_type_for.
  destruct (mem (upper method) accepted_methods); simpl; [|reflexivity].
  destruct (fs static_path (lstrip "/" path)) as [[content|]|]; simpl;
    try reflexivity.
  destruct (String.eqb (upper method) "HEAD"); reflexivity.
Qed.

Lemma mem_accepted_methods method :
  mem method accepted_methods = true <-> method = "GET" \/ method = "HEAD".
Proof.
  unfold mem, accepted_methods. simpl. rewrite !orb_true_iff, !String.eqb_eq.
  intuition discriminate.
Qed.



(** X2.  For an existing regular file, GET and HEAD (in any casing) are
    both answered 200 with the same headers, Content-Length being the size of
    the file; GET carries the content of the file and HEAD an empty body. *)
Theorem static_head_like_get
    (static_path : string) (fs : string -> string -> option fs_entry)
    (guess_type : string -> option string) (get_method head_method path : string)
    (content : bytes) :
  upper get_method = "GET" -> upper head_method = "HEAD" ->
  fs static_path (lstrip "/" path) = Some (RegularFile content) ->
  _static_handler static_path fs guess_type get_method path =
    (200%Z,
     [("Content-Length", [str (length content)]);
      ("Content-Type", [content_type_for guess_type path])],
     Some content) /\
  _static_handler static_path fs guess_type head_method path =
    (200%Z,
     [("Content-Length", [str (length content)]);
      ("Content-Type", [content_type_for guess_type path])],
     Some []).
Proof.
  intros Hg Hh Hf. rewrite !static_handler_cases, Hg, Hh, Hf. split; reflexivity.
Qed.

Lemma static_head_like_get_witness :
  headers_of (sample_static_handler "Get" "/index.html") =
  headers_of (sample_static_handler "head" "/index.html") /\
  body_of (sample_static_handler "head" "/index.html") = Some [].
Proof.
  destruct (@static_head_like_get "app/build" sample_fs sample_guess_type
              "Get" "head" "/index.html"
              (list_byte_of_string "<html></html>") eq_refl eq_refl eq_refl)
    as [Hg Hh].
  unfold sample_static_handler. rewrite Hg, Hh. split; reflexivity.
Defined.


(** X4.  The binary content decision never raises on a static response:
    the 401 and 404 answers are text, and a 200 answer is binary exactly
    when the Content-Type guessed for the path is not a text one. *)
Theorem static_response_binary_decision
    (static_path : string) (fs : string -> string -> option fs_entry)
    (guess_type : string -> option string) (method path : string) :
  let r := _static_handler static_path fs guess_type method path in
  (status_of r <> 200%Z -> _is_binary_content (headers_of r) = Ok false) /\
  (status_of r = 200%Z ->
   _is_binary_content (headers_of r) =
   Ok (negb (_is_text_content_type (content_type_for guess_type path)))).
Proof.
  cbv zeta. rewrite static_handler_cases.
  destruct (mem (upper method) accepted_methods).
  - destruct (fs static_path (lstrip "/" path)) as [[content|]|]; simpl;
      split; try reflexivity; try discriminate; try (intros H; now elim H).
    intros _. unfold _is_binary_content. simpl.
    destruct (_is_text_content_type _); reflexivity.
  - simpl. split; [reflexivity | discriminate].
Qed.

Lemma static_response_binary_decision_witness :
  status_of (sample_static_handler "PUT" "/index.html") <> 200%Z /\
  _is_binary_content (headers_of (sample_static_handler "PUT" "/index.html"))
    = Ok false /\
  status_of (sample_static_handler "GET" "/index.html") = 200%Z /\
  _is_binary_content (headers_of (sample_static_handler "GET" "/index.html"))
    = Ok false.
Proof.
  assert (Hn : status_of (sample_static_handler "PUT" "/index.html") <> 200%Z)
    by discriminate.
  split; [exact Hn|]. split.
  - exact (proj1 (static_response_binary_decision "app/build" sample_fs
                    sample_guess_type "PUT" "/index.html") Hn).
  - split; [reflexivity|].
    exact (proj2 (static_response_binary_decision "app/build" sample_fs
                    sample_guess_type "GET" "/index.html") eq_refl).
Defined.

(** ** Grouping header lines and flattening them again *)

Lemma group_headers_fold lines :
  group_headers lines = fold_left group_step lines [].
Proof. reflexivity. Qed.

Lemma group_step_lookup (acc : multidict) n v name :
  get name (group_step acc (n, v)) =
  if String.eqb n name
  then Some (values_of name acc ++ [v])
  else get name acc.
Proof.
  unfold group_step, values_of.
  destruct (String.eqb n name) eqn:E.
  - apply String.eqb_eq in E. subst n.
    destruct (get name acc); apply get_set_same.
  - apply String.eqb_neq in E.
    destruct (get n acc); apply get_set_other; congruence.
Qed.

Lemma fold_group_lookup lines : forall (acc : multidict) name,
  get name (fold_left group_step lines acc) =
  match get name acc, line_values name lines with
  | None, [] => None
  | None, v :: vs => Some (v :: vs)
  | Some values, vs => Some (values ++ vs)
  end.
Proof.
  induction lines as [|[n v] lines IH]; intros acc name.
  - simpl. destruct (get name acc); [now rewrite app_nil_r | reflexivity].
  - change (fold_left group_step ((n, v) :: lines) acc)
      with (fold_left group_step lines (group_step acc (n, v))).
    rewrite IH, group_step_lookup.
    unfold line_values. simpl filter.
    destruct (String.eqb n name) eqn:E; simpl.
    + unfold values_of. destruct (get name acc) as [values|].
      * now rewrite <- app_assoc.
      * reflexivity.
    + reflexivity.
Qed.

(** X6.  Grouping [(name, value)] lines keeps, for every name, exactly the
    values of the lines of that name (compared case-sensitively), in the
    order of the lines; a name with no line is not in the mapping. *)
Theorem group_headers_lookup (lines : list (string * string)) (name : string) :
  get name (group_headers lines) =
  match line_values name lines with
  | [] => None
  | values => Some values
  end.
Proof.
  rewrite group_headers_fold, fold_group_lookup. simpl.
  now destruct (line_values name lines).
Qed.

Lemma fold_group_one_name k vs : forall (acc : multidict) values,
  ~ In k (keys acc) ->
  fold_left group_step (map (fun value => (k, value)) vs) (acc ++ [(k, values)])
  = acc ++ [(k, values ++ vs)].
Proof.
  induction vs as [|v vs IH]; intros acc values Hn; simpl.
  - now rewrite app_nil_r.
  - rewrite get_app_fresh, set_app_fresh, IH, <- app_assoc by exact Hn.
    reflexivity.
Qed.

Lemma fold_group_lines (headers : multidict) : forall acc : multidict,
  wf (acc ++ headers) -> has_values headers ->
  fold_left group_step (header_lines headers) acc = acc ++ headers.
Proof.
  unfold wf, keys, header_lines.
  induction headers as [|[k vs] headers IH]; intros acc Hwf Hv; simpl.
  - now rewrite app_nil_r.
  - inversion Hv as [|? ? Hne Hv']; subst. simpl in Hne.
    destruct vs as [|v vs]; [congruence|].
    assert (Hfresh : ~ In k (keys acc)).
    { rewrite map_app in Hwf. simpl in Hwf. apply NoDup_remove_2 in Hwf.
      intros Hin. apply Hwf, in_or_app. now left. }
    rewrite fold_left_app.
    assert (E : get k acc = None) by now apply get_None.
    change (fold_left group_step (map (fun value => (k, value)) (v :: vs)) acc)
      with (fold_left group_step (map (fun value => (k, value)) vs)
              (group_step acc (k, v))).
    assert (E1 : group_step acc (k, v) = acc ++ [(k, [v])])
      by (unfold group_step; now rewrite E, set_fresh).
    rewrite E1.
    rewrite (@fold_group_one_name k vs acc [v] Hfresh).
    rewrite IH;
      [now rewrite <- app_assoc | rewrite <- app_assoc; exact Hwf | exact Hv'].
Qed.

(** X7.  Flattening a headers mapping into one line per value, as the
    backend proxy client does before sending, and grouping the lines again,
    as it does with the answer, gives the mapping back, when no name
    occurs twice and every header has a value. *)
Theorem group_header_lines_round_trip (headers : multidict) :
  wf headers -> has_values headers ->
  group_headers (header_lines headers) = headers.
Proof.
  intros Hwf Hv. rewrite group_headers_fold.
  exact (@fold_group_lines headers [] Hwf Hv).
Qed.

Lemma group_header_lines_round_trip_witness :
  group_headers (header_lines [("Accept", ["text/html"; "*/*"]);
                               ("Cookie", ["a=1"; "b=2"])])
  = [("Accept", ["text/html"; "*/*"]); ("Cookie", ["a=1"; "b=2"])].
Proof.
  apply group_header_lines_round_trip.
  - unfold wf. simpl. repeat constructor; simpl; intuition discriminate.
  - repeat constructor; discriminate.
Defined.

(** ** Router and backend proxy client *)

Lemma api_path_not_root path : startswith path "/api/" = true -> String.eqb path "/" = false.
Proof.
  intros H. destruct (String.eqb path "/") eqn:E; [|reflexivity].
  apply String.eqb_eq in E. subst path. discriminate H.
Qed.



(** X8.  The binary content decision never raises on a response of the
    router, static or proxied: every header of such a response has a
    value. *)
Theorem router_response_binary_decision_total
    (static_path api_server_host : string) (api_server_port : nat)
    (fs : string -> string -> option fs_entry)
    (guess_type : string -> option string)
    (urlencode : multidict -> string)
    (http_exchange :
       string -> nat -> Q -> string -> string -> list (string * string) ->
       option payload -> outcome (Z * list (string * string) * bytes))
    (method path : string) (query headers : multidict) (body : option payload)
    (timeout : Q) (r : response) :
  _root_handler static_path api_server_host api_server_port fs guess_type
                urlencode http_exchange method path query headers body timeout
    = Ok r ->
  has_values (headers_of r) /\
  exists is_binary, _is_binary_content (headers_of r) = Ok is_binary.
Proof.
  intros Hr. apply root_handler_has_values in Hr. split; [exact Hr|].
  rewrite (is_binary_content_eq Hr). eauto.
Qed.

Lemma router_response_binary_decision_total_witness :
  exists is_binary,
    _is_binary_content
      [("Content-Type", ["application/json"])] = Ok is_binary.
Proof.
  apply (@router_response_binary_decision_total
           "app/build" "localhost" 8180 sample_fs sample_guess_type
           sample_urlencode sample_http_exchange "GET" "/api/date" [] [] None 15
           (200%Z, [("Content-Type", ["application/json"])],
            Some (list_byte_of_string "{}")) eq_refl).
Defined.

(** ** Binary content decision: errors and irrelevant headers *)

Lemma scan_content_headers_raises (items : multidict) :
  forall content_type content_encoding e,
    scan_content_headers items content_type content_encoding = Raise e <->
    e = IndexError /\
    exists name, In (name, []) items /\ content_header name = true.
Proof.
  unfold content_header.
  induction items as [|[n vs] rest IH]; intros ct ce e.
  - simpl. split; [discriminate | intros [_ [name [[] _]]]].
  - simpl scan_content_headers.
    destruct (String.eqb (lower n) "content-type") eqn:Et.
    + assert (Ee : String.eqb (lower n) "content-encoding" = false).
      { apply String.eqb_eq in Et. rewrite Et. reflexivity. }
      rewrite Ee. destruct vs as [|v vs]; simpl.
      * split.
        -- intros [= <-]. split; [reflexivity|]. exists n. split; [now left|].
           now rewrite Et.
        -- intros [-> _]. reflexivity.
      * rewrite IH. split.
        -- intros [He [name [Hin Hc]]]. split; [exact He|]. exists name.
           split; [now right | exact Hc].
        -- intros [He [name [[Heq|Hin] Hc]]]; [discriminate Heq|].
           split; [exact He|]. eauto.
    + simpl. destruct (String.eqb (lower n) "content-encoding") eqn:Ee.
      * destruct vs as [|v vs]; simpl.
        -- split.
           ++ intros [= <-]. split; [reflexivity|]. exists n. split; [now left|].
              now rewrite Ee, orb_true_r.
           ++ intros [-> _]. reflexivity.
        -- rewrite IH. split.
           ++ intros [He [name [Hin Hc]]]. split; [exact He|]. exists name.
              split; [now right | exact Hc].
           ++ intros [He [name [[Heq|Hin] Hc]]]; [discriminate Heq|].
              split; [exact He|]. eauto.
      * simpl. rewrite IH. split.
        -- intros [He [name [Hin Hc]]]. split; [exact He|]. exists name.
           split; [now right | exact Hc].
        -- intros [He [name [[Heq|Hin] Hc]]].
           ++ injection Heq as -> _. rewrite Et, Ee in Hc. discriminate Hc.
           ++ split; [exact He|]. eauto.
Qed.

(** X9.  The binary content decision raises exactly when a header named
    Content-Type or Content-Encoding, in any casing, has an empty sequence
    of values, and what it raises then is IndexError; an empty sequence
    under any other name is harmless. *)
Theorem is_binary_content_raises (headers : multidict) (e : exn) :
  _is_binary_content headers = Raise e <->
  e = IndexError /\
  exists name, In (name, []) headers /\ content_header name = true.
Proof.
  rewrite <- (scan_content_headers_raises headers "text/plain" "identity" e).
  unfold _is_binary_content.
  destruct (scan_content_headers headers "text/plain" "identity")
    as [[ct ce]|e'] eqn:E; simpl.
  - split; [|discriminate].
    destruct (negb (String.eqb ce "identity")); [discriminate|].
    destruct (_is_text_content_type ct); discriminate.
  - split; intros [= ->]; reflexivity.
Qed.

Lemma scan_content_headers_filter (items : multidict) :
  forall content_type content_encoding,
    scan_content_headers
      (filter (fun '(name, _) => content_header name) items)
      content_type content_encoding =
    scan_content_headers items content_type content_encoding.
Proof.
  unfold content_header.
  induction items as [|[n vs] rest IH]; intros ct ce.
  - reflexivity.
  - simpl filter. simpl scan_content_headers at 2.
    destruct (String.eqb (lower n) "content-type") eqn:Et.
    + simpl orb. cbv iota. simpl scan_content_headers at 1. rewrite Et.
      destruct (String.eqb (lower n) "content-encoding");
        destruct vs as [|v vs]; simpl; try reflexivity; apply IH.
    + destruct (String.eqb (lower n) "content-encoding") eqn:Ee.
      * simpl orb. cbv iota. simpl scan_content_headers at 1. rewrite Et, Ee.
        destruct vs as [|v vs]; simpl; [reflexivity | apply IH].
      * simpl. apply IH.
Qed.

(** X10.  The binary content decision depends on the Content-Type and
    Content-Encoding headers only: dropping every other header changes
    neither its answer nor whether it raises. *)
Theorem is_binary_content_ignores_other_headers (headers : multidict) :
  _is_binary_content (filter (fun '(name, _) => content_header name) headers)
  = _is_binary_content headers.
Proof.
  unfold _is_binary_content. now rewrite scan_content_headers_filter.
Qed.

(** ** Header values across the gateway: split and join *)

Lemma split_not_nil c s : split c s <> [].
Proof.
  destruct s as [|a s]; simpl; [discriminate|].
  destruct (Ascii.eqb a c); [discriminate|].
  destruct (split c s); discriminate.
Qed.

Lemma join_cons_char sep a field fields :
  join sep (String a field :: fields) = String a (join sep (field :: fields)).
Proof. destruct fields; reflexivity. Qed.

Lemma join_split c s : join (String c EmptyString) (split c s) = s.
Proof.
  induction s as [|a s IH]; simpl.
  - reflexivity.
  - destruct (Ascii.eqb a c) eqn:E.
    + apply Ascii.eqb_eq in E. subst a.
      destruct (split c s) as [|field fields] eqn:Es;
        [now apply split_not_nil in Es|].
      change (join (String c EmptyString) (EmptyString :: field :: fields))
        with (String c (join (String c EmptyString) (field :: fields))).
      now rewrite IH.
    + destruct (split c s) as [|field fields] eqn:Es;
        [now apply split_not_nil in Es|].
      now rewrite join_cons_char, IH.
Qed.

Lemma length_split c s : length (split c s) = S (count_char c s).
Proof.
  induction s as [|a s IH]; simpl.
  - reflexivity.
  - destruct (Ascii.eqb a c); simpl.
    + now rewrite IH.
    + destruct (split c s) as [|field fields] eqn:Es;
        [now apply split_not_nil in Es|].
      simpl in *. exact IH.
Qed.

Lemma split_fields_clean c s : Forall (fun field => count_char c field = 0) (split c s).
Proof.
  induction s as [|a s IH]; simpl.
  - repeat constructor.
  - destruct (Ascii.eqb a c) eqn:E.
    + constructor; [reflexivity | exact IH].
    + destruct (split c s) as [|field fields] eqn:Es;
        [now apply split_not_nil in Es|].
      inversion IH as [|? ? Hf Hfs]; subst.
      constructor; [|exact Hfs]. simpl. now rewrite E.
Qed.

(** X11.  Splitting a header value at its commas, as the gateway adapter
    does with the headers of an event, gives one more value than the string
    has commas, none of them containing a comma, and joining them with
    commas, as the adapter does for the reply, gives the string back. *)
Theorem split_then_join (s : string) :
  join "," (split "," s) = s /\
  length (split "," s) = S (count_char "," s) /\
  Forall (fun field => count_char "," field = 0) (split "," s).
Proof.
  split; [apply join_split|]. split; [apply length_split|].
  apply split_fields_clean.
Qed.

Lemma split_clean c s : count_char c s = 0 -> split c s = [s].
Proof.
  induction s as [|a s IH]; simpl.
  - reflexivity.
  - destruct (Ascii.eqb a c); [discriminate|]. simpl. intros H.
    now rewrite IH.
Qed.

Lemma split_append_sep c s rest :
  count_char c s = 0 ->
  split c (String.append s (String c rest)) = s :: split c rest.
Proof.
  induction s as [|a s IH]; simpl.
  - now rewrite Ascii.eqb_refl.
  - destruct (Ascii.eqb a c); [discriminate|]. simpl. intros H.
    now rewrite IH.
Qed.



(** ** Request headers built by the gateway adapter *)

Lemma has_values_fold_set (items : list (string * list string)) :
  Forall (fun item => snd item <> []) items ->
  forall acc : multidict, has_values acc ->
    has_values (fold_left (fun d kv => set (fst kv) (snd kv) d) items acc).
Proof.
  induction 1 as [|[k v] items Hv Hitems IH]; intros acc Hacc; simpl.
  - exact Hacc.
  - apply IH, has_values_set; assumption.
Qed.

Lemma has_values_add_cookies cookies : forall headers : multidict,
  has_values headers -> has_values (add_cookies cookies headers).
Proof.
  induction cookies as [|cookie rest IH]; intros headers Hv.
  - exact Hv.
  - rewrite add_cookies_step. apply IH, has_values_set; [exact Hv|].
    now destruct (values_of "Cookie" headers).
Qed.

Lemma wf_add_cookies cookies : forall headers : multidict,
  wf headers -> wf (add_cookies cookies headers).
Proof.
  induction cookies as [|cookie rest IH]; intros headers Hwf.
  - exact Hwf.
  - rewrite add_cookies_step. apply IH, wf_set, Hwf.
Qed.

(** X13.  The request headers the gateway adapter builds from an event
    have no name twice and no header without a value, whatever the event:
    an empty header string becomes one empty value, not none. *)
Theorem request_headers_well_formed (event : gateway_event) :
  wf (request_headers event) /\ has_values (request_headers event).
Proof.
  unfold request_headers. split.
  - apply wf_add_cookies, wf_of_items.
  - apply has_values_add_cookies. unfold split_headers, of_items.
    apply has_values_fold_set; [|constructor].
    apply Forall_forall. intros [name values] Hin.
    apply in_map_iff in Hin. destruct Hin as [[n v] [[= <- <-] _]].
    simpl. apply split_not_nil.
Qed.

(** X14.  When the event has no header spelled Cookie, the header lines
    sent to the backend are those of the event's headers followed by one
    Cookie line per cookie of the event, in order: cookies are not joined
    into one line. *)
Theorem cookies_forwarded_as_lines (event : gateway_event) :
  ~ In "Cookie" (keys (split_headers event)) ->
  header_lines (request_headers event) =
  header_lines (split_headers event)
  ++ map (fun cookie => ("Cookie", cookie)) (cookie_list event).
Proof.
  intros Hn. unfold request_headers.
  destruct (cookie_list event) as [|cookie rest].
  - simpl. now rewrite app_nil_r.
  - rewrite add_cookies_fresh by exact Hn. unfold header_lines.
    rewrite flat_map_app. simpl. now rewrite app_nil_r.
Qed.

Lemma cookies_forwarded_as_lines_witness :
  header_lines (request_headers two_cookies_event) =
  [("accept", "application/json"); ("Cookie", "a=1"); ("Cookie", "b=2")].
Proof.
  rewrite cookies_forwarded_as_lines.
  - reflexivity.
  - simpl. intros [H|[]]. discriminate H.
Defined.

(** ** The gateway adapter as a whole *)

Lemma lambda_handler_steps
    parse_qs standard_b64decode standard_b64encode proxy_app event
    remaining_time_in_millis :
  lambda_handler parse_qs standard_b64decode standard_b64encode proxy_app
                 event remaining_time_in_millis =
  if String.eqb (version event) "2.0" then
    match request_body standard_b64decode event with
    | Raise e => Raise e
    | Ok body =>
        match route_event parse_qs proxy_app event remaining_time_in_millis
                body with
        | Raise e => Raise e
        | Ok (status, response_headers, response_body) =>
            match _is_binary_content response_headers with
            | Raise e => Raise e
            | Ok true =>
                match response_body with
                | Some b =>
                    Ok {| statusCode := status;
                          reply_headers := serialize_headers response_headers;
                          reply_cookies := serialize_cookies response_headers;
                          reply_isBase64Encoded := true;
                          reply_body := Some (standard_b64encode b) |}
                | None => Raise TypeError
                end
            | Ok false =>
                Ok {| statusCode := status;
                      reply_headers := serialize_headers response_headers;
                      reply_cookies := serialize_cookies response_headers;
                      reply_isBase64Encoded := false;
                      reply_body := response_body |}
            end
        end
    end
  else Raise AssertionError.
Proof.
  unfold lambda_handler, request_body, route_event.
  destruct (String.eqb (version event) "2.0"); simpl; [|reflexivity].
  destruct (isBase64Encoded event); simpl.
  - destruct (standard_b64decode _) as [b|e]; simpl; [|reflexivity].
    destruct (proxy_app _ _ _ _ _ _) as [[[status hs] rb]|e]; simpl;
      [|reflexivity].
    destruct (_is_binary_content hs) as [[|]|e]; simpl; try reflexivity.
    destruct rb; reflexivity.
  - destruct (proxy_app _ _ _ _ _ _) as [[[status hs] rb]|e]; simpl;
      [|reflexivity].
    destruct (_is_binary_content hs) as [[|]|e]; simpl; try reflexivity.
    destruct rb; reflexivity.
Qed.


Lemma static_handler_shape
    (static_path : string) (fs : string -> string -> option fs_entry)
    (guess_type : string -> option string) (method path : string) :
  exists status content_length content_type body,
    _static_handler static_path fs guess_type method path =
    (status,
     [("Content-Length", [content_length]); ("Content-Type", [content_type])],
     Some body).
Proof.
  rewrite static_handler_cases.
  destruct (mem (upper method) accepted_methods).
  - destruct (fs static_path (lstrip "/" path)) as [[content|]|];
      repeat eexists.
  - repeat eexists.
Qed.

Lemma root_handler_body
    static_path api_server_host api_server_port fs guess_type urlencode
    http_exchange method path query headers body timeout r :
  _root_handler static_path api_server_host api_server_port fs guess_type
                urlencode http_exchange method path query headers body timeout
    = Ok r ->
  body_of r <> None.
Proof.
  unfold _root_handler, _api_server_handler.
  assert (Hs : forall m p,
            body_of (_static_handler static_path fs guess_type m p) <> None).
  { intros m p.
    destruct (static_handler_shape static_path fs guess_type m p)
      as (st & cl & ct & b & ->). discriminate. }
  destruct (String.eqb path "/").
  - intros [= <-]. apply Hs.
  - destruct (startswith path "/api/").
    + destruct (http_exchange _ _ _ _ _ _ _) as [[[status lines] b]|e]; simpl;
        [|discriminate].
      intros [= <-]. discriminate.
    + intros [= <-]. apply Hs.
Qed.

Lemma root_handler_raises
    static_path api_server_host api_server_port fs guess_type urlencode
    http_exchange method path query headers body timeout e :
  _root_handler static_path api_server_host api_server_port fs guess_type
                urlencode http_exchange method path query headers body timeout
    = Raise e ->
  startswith path "/api/" = true /\
  exists url,
    http_exchange api_server_host api_server_port timeout method url
                  (header_lines headers) body = Raise e.
Proof.
  unfold _root_handler, _api_server_handler.
  destruct (String.eqb path "/"); [discriminate|].
  destruct (startswith path "/api/"); [|discriminate].
  fold (header_lines headers).
  destruct (http_exchange _ _ _ _ _ _ _) as [[[status lines] b]|e'] eqn:E;
    simpl; [discriminate|].
  intros [= <-]. split; [reflexivity|]. eexists. exact E.
Qed.



Lemma binary_of_static_headers content_length content_type :
  _is_binary_content
    [("Content-Length", [content_length]); ("Content-Type", [content_type])]
  = Ok (negb (_is_text_content_type content_type)).
Proof.
  unfold _is_binary_content. simpl.
  destruct (_is_text_content_type content_type); reflexivity.
Qed.



(** ** Backend process manager: every run *)

Section probe_loop_runs.

Variable connect_ex : nat -> string -> nat -> Z.
Variable monotonic : nat -> Q.
Variable process : Popen.
Variable host : string.
Variable port : nat.
Variable end_time : Q.

Lemma wait_for_port_run fuel : forall attempt trace r trace',
  wait_for_port connect_ex monotonic fuel process host port end_time
                attempt trace = Some (r, trace') ->
  exists rest,
    trace' = trace ++ rest /\ filter is_spawn rest = [] /\
    match r with
    | Ok _ =>
        filter is_terminate rest = [] /\
        exists before, rest = before ++ [Connect host port 0]
    | Raise e =>
        e = RuntimeError "Timeout waiting for API server to start" /\
        exists before,
          rest = before ++ [Terminate process] /\
          filter is_terminate before = []
    end.
Proof.
  induction fuel as [|fuel IH]; intros attempt trace r trace' H; simpl in H.
  - discriminate.
  - destruct (Z.eqb (connect_ex attempt host port) 0) eqn:Ec.
    + apply Z.eqb_eq in Ec. rewrite Ec in H. injection H as <- <-.
      exists [Sleep (1 # 100); Connect host port 0].
      rewrite <- app_assoc. repeat split. now exists [Sleep (1 # 100)].
    + destruct (Qle_bool end_time (monotonic (S attempt))).
      * injection H as <- <-.
        exists [Sleep (1 # 100);
                Connect host port (connect_ex attempt host port);
                Clock (monotonic (S attempt)); Terminate process].
        rewrite <- !app_assoc. repeat split.
        now exists [Sleep (1 # 100);
                    Connect host port (connect_ex attempt host port);
                    Clock (monotonic (S attempt))].
      * apply IH in H. destruct H as (rest & -> & Hs & Hr).
        exists ([Sleep (1 # 100);
                 Connect host port (connect_ex attempt host port);
                 Clock (monotonic (S attempt))] ++ rest).
        rewrite <- !app_assoc. split; [reflexivity|].
        split; [simpl; exact Hs|].
        destruct r as [u|e].
        -- destruct Hr as [Ht [before ->]]. split; [simpl; exact Ht|].
           eexists. rewrite app_assoc. reflexivity.
        -- destruct Hr as [He [before [-> Ht]]]. split; [exact He|].
           eexists. split; [rewrite app_assoc; reflexivity|].
           simpl. exact Ht.
Qed.

Lemma wait_for_port_terminates n : forall attempt fuel trace,
  (end_time <= monotonic (S (attempt + n)))%Q -> n < fuel ->
  exists r rest,
    wait_for_port connect_ex monotonic fuel process host port end_time
                  attempt trace = Some (r, trace ++ rest) /\
    length (filter is_connect rest) <= S n.
Proof.
  induction n as [|n IH]; intros attempt fuel trace Hd Hf;
    (destruct fuel as [|fuel]; [lia|]); simpl.
  - rewrite Nat.add_0_r in Hd. apply Qle_bool_iff in Hd. rewrite Hd.
    destruct (Z.eqb (connect_ex attempt host port) 0).
    + eexists _, [_; _]. rewrite <- app_assoc. split; [reflexivity|].
      simpl. lia.
    + eexists _, [_; _; _; _]. rewrite <- !app_assoc. split; [reflexivity|].
      simpl. lia.
  - destruct (Z.eqb (connect_ex attempt host port) 0).
    + eexists _, [_; _]. rewrite <- app_assoc. split; [reflexivity|].
      simpl. lia.
    + destruct (Qle_bool end_time (monotonic (S attempt))).
      * eexists _, [_; _; _; _]. rewrite <- !app_assoc.
        split; [reflexivity|]. simpl. lia.
      * rewrite Nat.add_succ_r, <- Nat.add_succ_l in Hd.
        destruct (IH (S attempt) fuel
                     (((trace ++ [Sleep (1 # 100)])
                       ++ [Connect host port (connect_ex attempt host port)])
                      ++ [Clock (monotonic (S attempt))]) Hd)
          as (r & rest & Hrun & Hcount); [lia|].
        exists r, ([Sleep (1 # 100);
                    Connect host port (connect_ex attempt host port);
                    Clock (monotonic (S attempt))] ++ rest).
        rewrite Hrun, <- !app_assoc. split; [reflexivity|].
        simpl. lia.
Qed.

End probe_loop_runs.

Lemma clock_advances (monotonic : nat -> Q) :
  (forall k, (monotonic k + (1 # 100) <= monotonic (S k))%Q) ->
  forall k,
    (monotonic 0%nat + inject_Z (Z.of_nat k) * (1 # 100) <= monotonic k)%Q.
Proof.
  intros Hstep. induction k as [|k IH].
  - change (inject_Z (Z.of_nat 0)) with 0%Q. lra.
  - specialize (Hstep k). rewrite Nat2Z.inj_succ. unfold Z.succ.
    rewrite inject_Z_plus. change (inject_Z 1) with 1%Q. lra.
Qed.

(** X18.  A run that comes to an end spawned the process once, as its
    first effect.  When it returns, it returns the handle of that process,
    its last effect is a connection attempt that succeeded and the process
    was not terminated; when it raises, it raises the RuntimeError of the
    start time-out and its last effect, and only then, is the termination
    of the process. *)
Theorem startup_run_outcome
    (connect_ex : nat -> string -> nat -> Z) (monotonic : nat -> Q)
    (fuel : nat) (command host : string) (port : nat) (start_timeout : Z)
    (path : string) (r : outcome Popen) (trace : list effect) :
  start_api_server_process connect_ex monotonic fuel command host port
                           start_timeout path = Some (r, trace) ->
  exists rest,
    trace = Spawn (spawn command port path) :: Clock (monotonic 0) :: rest /\
    filter is_spawn rest = [] /\
    match r with
    | Ok process =>
        process = spawn command port path /\
        filter is_terminate trace = [] /\
        last trace (Clock 0%Q) = Connect host port 0
    | Raise e =>
        e = RuntimeError "Timeout waiting for API server to start" /\
        filter is_terminate trace = [Terminate (spawn command port path)] /\
        last trace (Clock 0%Q) = Terminate (spawn command port path)
    end.
Proof.
  unfold start_api_server_process.
  destruct (wait_for_port _ _ _ _ _ _ _ _ _) as [[r' trace']|] eqn:Hw;
    [|discriminate].
  apply wait_for_port_run in Hw. destruct Hw as (rest & -> & Hs & Hr).
  intros Hrun. exists rest.
  destruct r' as [u|e]; injection Hrun as <- <-.
  - destruct Hr as [Ht [before ->]].
    split; [reflexivity|]. split; [exact Hs|]. split; [reflexivity|].
    split; [exact Ht|].
    exact (last_last
             (Spawn (spawn command port path) :: Clock (monotonic 0) :: before)
             (Connect host port 0) (Clock 0%Q)).
  - destruct Hr as [-> [before [-> Ht]]].
    split; [reflexivity|]. split; [exact Hs|]. split; [reflexivity|]. split.
    + simpl. rewrite filter_app, Ht. reflexivity.
    + exact (last_last
               (Spawn (spawn command port path) :: Clock (monotonic 0) :: before)
               (Terminate (spawn command port path)) (Clock 0%Q)).
Qed.

Lemma startup_run_outcome_witness :
  exists trace,
    start_api_server_process never_connect_ex sample_monotonic 600
      "python api/app.py" "localhost" 8180 1 "/usr/bin"
    = Some (Raise (RuntimeError "Timeout waiting for API server to start"),
            trace) /\
    filter is_terminate trace
    = [Terminate (spawn "python api/app.py" 8180 "/usr/bin")].
Proof.
  destruct (start_api_server_process never_connect_ex sample_monotonic 600
              "python api/app.py" "localhost" 8180 1 "/usr/bin")
    as [[r trace]|] eqn:Hrun; [|vm_compute in Hrun; discriminate Hrun].
  destruct (startup_run_outcome _ _ _ _ _ _ _ _ Hrun) as (rest & _ & _ & Hr).
  destruct r as [p|e].
  - exfalso. vm_compute in Hrun. discriminate Hrun.
  - destruct Hr as (-> & Ht & _). exists trace. split; [reflexivity | exact Ht].
Defined.

(** X19.  When every reading of the clock is at least the sleep interval of
    10 ms after the one before, the wait is bounded: the call returns or
    raises within one more loop iteration than the start time-out counts
    hundredths of a second (one iteration for a time-out of zero or less),
    having made at most that many connection attempts. *)
Theorem startup_wait_is_bounded
    (connect_ex : nat -> string -> nat -> Z) (monotonic : nat -> Q)
    (command host : string) (port : nat) (start_timeout : Z) (path : string)
    (fuel : nat) :
  (forall k, (monotonic k + (1 # 100) <= monotonic (S k))%Q) ->
  Z.to_nat (100 * start_timeout) < fuel ->
  exists r trace,
    start_api_server_process connect_ex monotonic fuel command host port
                             start_timeout path = Some (r, trace) /\
    length (filter is_connect trace) <= S (Z.to_nat (100 * start_timeout)).
Proof.
  intros Hstep Hfuel. unfold start_api_server_process.
  set (n := Z.to_nat (100 * start_timeout)) in *.
  assert (Hd : (monotonic 0%nat + inject_Z start_timeout
                <= monotonic (S (0 + n)))%Q).
  { pose proof (clock_advances monotonic Hstep (S n)) as Hk.
    assert (Hn : (inject_Z start_timeout
                  <= inject_Z (Z.of_nat (S n)) * (1 # 100))%Q).
    { unfold Qle, Qmult, inject_Z. simpl Qnum. simpl Qden. subst n. lia. }
    simpl plus. lra. }
  destruct (@wait_for_port_terminates connect_ex monotonic
              (spawn command port path) host port
              (monotonic 0%nat + inject_Z start_timeout)%Q n 0 fuel
              [Spawn (spawn command port path); Clock (monotonic 0)]
              Hd Hfuel)
    as (r & rest & Hrun & Hcount).
  rewrite Hrun. destruct r as [u|e]; eexists _, _; (split; [reflexivity|]);
    simpl; exact Hcount.
Qed.

Lemma startup_wait_is_bounded_witness :
  exists r trace,
    start_api_server_process never_connect_ex sample_monotonic 101
      "python api/app.py" "localhost" 8180 1 "/usr/bin" = Some (r, trace) /\
    length (filter is_connect trace) <= 101.
Proof.
  apply (@startup_wait_is_bounded never_connect_ex sample_monotonic
           "python api/app.py" "localhost" 8180 1 "/usr/bin" 101).
  - intros k. unfold sample_monotonic, Qle, Qplus. simpl Qnum. simpl Qden. lia.
  - vm_compute. lia.
Defined.

(** ** The standalone socket adapter *)

Lemma do_request_steps
    urlparse parse_qs int_of_str rfile_read proxy_app command raw_path message :
  do_request urlparse parse_qs int_of_str rfile_read proxy_app
             command raw_path message =
  match urlparse raw_path with
  | Raise e => (Raise e, [SendError 500%Z "Internal Server Error"])
  | Ok (path, query_string) =>
      match declared_length int_of_str message with
      | Raise e => (Raise e, [SendError 500%Z "Internal Server Error"])
      | Ok length =>
          match proxy_app command path (parse_qs query_string)
                          (group_headers message)
                          (read_body rfile_read length) 15%Q with
          | Raise e => (Raise e, [SendError 500%Z "Internal Server Error"])
          | Ok r => (Ok tt, send r)
          end
      end
  end.
Proof.
  unfold do_request, try_request, declared_length, read_body, send.
  destruct (urlparse raw_path) as [[path query_string]|e]; simpl;
    [|reflexivity].
  destruct (match message_get "Content-Length" message with
            | Some value => int_of_str value
            | None => Ok 0%Z
            end) as [length|e]; simpl; [|reflexivity].
  destruct (proxy_app _ _ _ _ _ _) as [[[status hs] rb]|e]; simpl; reflexivity.
Qed.




(** ** One-time initialisation *)

(** X22.  When the one-time initialisation succeeds, the process it keeps
    was told, in its PORT variable, to listen on the port the proxy
    application forwards to, 8180 on localhost, and was not terminated; when
    starting the backend raises, the initialisation raises the same and sets
    no proxy application. *)
Theorem one_time_init_wiring
    (API_COMMAND : string) (API_START_TIMEOUT : Z) (STATIC_PATH PATH : string)
    (connect_ex : nat -> string -> nat -> Z) (monotonic : nat -> Q)
    (fs : string -> string -> option fs_entry)
    (guess_type : string -> option string)
    (urlencode : multidict -> string)
    (http_exchange :
       string -> nat -> Q -> string -> string -> list (string * string) ->
       option payload -> outcome (Z * list (string * string) * bytes))
    (fuel : nat) :
  (forall api_process proxy_app trace,
     one_time_init API_COMMAND API_START_TIMEOUT STATIC_PATH PATH connect_ex
                   monotonic fs guess_type urlencode http_exchange fuel
       = Some (Ok (api_process, proxy_app), trace) ->
     get "PORT" (popen_env api_process) = Some "8180" /\
     get "PATH" (popen_env api_process) = Some PATH /\
     popen_args api_process = API_COMMAND /\
     proxy_app = _root_handler STATIC_PATH "localhost" 8180 fs guess_type
                               urlencode http_exchange /\
     filter is_terminate trace = []) /\
  (forall e trace,
     one_time_init API_COMMAND API_START_TIMEOUT STATIC_PATH PATH connect_ex
                   monotonic fs guess_type urlencode http_exchange fuel
       = Some (Raise e, trace) <->
     start_api_server_process connect_ex monotonic fuel API_COMMAND "localhost"
                              8180 API_START_TIMEOUT PATH
       = Some (Raise e, trace)).
Proof.
  unfold one_time_init. split.
  - intros api_process proxy_app trace H.
    destruct (start_api_server_process _ _ _ _ _ _ _ _)
      as [[[p|e] trace']|] eqn:Hs; try discriminate H.
    injection H as <- <- <-.
    unfold start_api_server_process in Hs.
    destruct (wait_for_port _ _ _ _ _ _ _ _ _) as [[[u|e] t]|] eqn:Hw;
      try discriminate Hs.
    injection Hs as <- <-.
    apply wait_for_port_run in Hw. destruct Hw as (rest & -> & _ & Ht & _).
    repeat split. simpl. exact Ht.
  - intros e trace.
    destruct (start_api_server_process _ _ _ _ _ _ _ _)
      as [[[p|e'] trace']|]; split; intros H; try discriminate H;
      injection H as <- <-; reflexivity.
Qed.

Lemma one_time_init_wiring_witness :
  exists api_process proxy_app trace,
    one_time_init "python api/app.py" 5 "app/build" "/usr/bin"
      sample_connect_ex sample_monotonic sample_fs sample_guess_type
      sample_urlencode sample_http_exchange 3
    = Some (Ok (api_process, proxy_app), trace) /\
    get "PORT" (popen_env api_process) = Some "8180".
Proof.
  destruct (one_time_init "python api/app.py" 5 "app/build" "/usr/bin"
              sample_connect_ex sample_monotonic sample_fs sample_guess_type
              sample_urlencode sample_http_exchange 3)
    as [[[[api_process proxy_app]|e] trace]|] eqn:H;
    [|vm_compute in H; discriminate H | vm_compute in H; discriminate H].
  exists api_process, proxy_app, trace. split; [reflexivity|].
  exact (proj1 (proj1 (one_time_init_wiring _ _ _ _ _ _ _ _ _ _ _) _ _ _ H)).
Defined.

(** ** Content types with parameters *)

Lemma prefix_append p s suffix :
  String.prefix p s = true -> String.prefix p (String.append s suffix) = true.
Proof.
  revert s. induction p as [|a p IH]; intros s H.
  - now destruct (String.append s suffix).
  - destruct s as [|b s]; simpl in *; [discriminate|].
    destruct (ascii_dec a b); [now apply IH | discriminate].
Qed.

(** X23.  A content type that is text stays text whatever follows it, so a
    charset or boundary parameter after the media type does not turn a
    text response into a binary one. *)
Theorem text_content_type_with_parameters (content_type parameters : string) :
  _is_text_content_type content_type = true ->
  _is_text_content_type (String.append content_type parameters) = true.
Proof.
  unfold _is_text_content_type, startswith. intros H.
  assert (Hp : forall p, String.prefix p content_type = true ->
                 String.prefix p (String.append content_type parameters) = true)
    by (intros p Hp; now apply prefix_append).
  set (extended := String.append content_type parameters) in *.
  destruct (String.prefix "text/" content_type) eqn:E1;
    [rewrite (Hp _ E1); reflexivity|].
  destruct (String.prefix "application/javascript" content_type) eqn:E2;
    [rewrite (Hp _ E2); destruct (String.prefix "text/" extended);
     reflexivity|].
  destruct (String.prefix "application/json" content_type) eqn:E3;
    [rewrite (Hp _ E3); destruct (String.prefix "text/" extended);
     [|destruct (String.prefix "application/javascript" extended)];
     reflexivity|].
  destruct (String.prefix "image/svg+xml" content_type) eqn:E4;
    [|discriminate].
  rewrite (Hp _ E4). destruct (String.prefix "text/" extended); [reflexivity|].
  destruct (String.prefix "application/javascript" extended); [reflexivity|].
  destruct (String.prefix "application/json" extended); reflexivity.
Qed.

Lemma text_content_type_with_parameters_witness :
  _is_text_content_type "text/html" = true /\
  _is_text_content_type (String.append "text/html" "; charset=utf-8") = true.
Proof.
  split; [reflexivity|].
  now apply text_content_type_with_parameters.
Defined.
